(** * Port Inspector: the refresh / filter / kill pipeline of [main.py]

    A shallow embedding of the logic of [main.py]: the helpers
    [format_local_addr] and [safe_proc_name], and the methods [refresh],
    [populate_table], [apply_filter], [on_kill_clicked] and [try_kill_pid]
    of the [PortInspector] widget.

    - Python [str] values are Rocq [string]s; a character is a code point
      below 256 and [isdigit], [lower], [strip] and [int] act on that range
      as Python does.
    - Python [int] values are [Z].
    - The calls into psutil, os, subprocess and the message boxes are the
      fields of a [Host] record over an abstract world; every call the
      program makes is also written to a trace of [event]s.
    - Exceptions are values; a computation returns [Ok] or [Raise]. *)

From Stdlib Require Import ZArith Lia Bool String Ascii List DecimalString DecimalPos.
From Stdlib Require Import OrdersEx Sorting.Sorted Sorting.Permutation.
From stdpp Require Import base list strings.
Import ListNotations.
Local Open Scope Z_scope.

(** ** Python strings *)

Module PyStr.

Definition code (c : ascii) : N := N_of_ascii c.

Definition between (lo hi : N) (c : ascii) : bool :=
  ((lo <=? code c) && (code c <=? hi))%N.

(** [c.isspace()] for a code point below 256. *)
Definition isspace_char (c : ascii) : bool :=
  between 9 13 c || between 28 32 c || (code c =? 133)%N || (code c =? 160)%N.

(** [c.isdigit()] for a code point below 256: the ASCII digits and the
    superscripts two, three and one. *)
Definition isdigit_char (c : ascii) : bool :=
  between 48 57 c || (code c =? 178)%N || (code c =? 179)%N || (code c =? 185)%N.

(** [c.lower()] for a code point below 256. *)
Definition lower_char (c : ascii) : ascii :=
  if between 65 90 c || between 192 214 c || between 216 222 c
  then ascii_of_N (code c + 32)
  else c.

Fixpoint lower (s : string) : string :=
  match s with
  | EmptyString => EmptyString
  | String c s' => String (lower_char c) (lower s')
  end.

Fixpoint all_chars (p : ascii -> bool) (s : string) : bool :=
  match s with
  | EmptyString => true
  | String c s' => p c && all_chars p s'
  end.

(** [s.isdigit()]: every character is a digit and there is at least one. *)
Definition isdigit (s : string) : bool :=
  match s with
  | EmptyString => false
  | _ => all_chars isdigit_char s
  end.

Fixpoint lstrip (s : string) : string :=
  match s with
  | EmptyString => EmptyString
  | String c s' => if isspace_char c then lstrip s' else s
  end.

Fixpoint rstrip (s : string) : string :=
  match s with
  | EmptyString => EmptyString
  | String c s' =>
      match rstrip s' with
      | EmptyString => if isspace_char c then EmptyString else String c EmptyString
      | t => String c t
      end
  end.

Definition strip (s : string) : string := rstrip (lstrip s).

(** [q in s]: [q] occurs in [s] as a contiguous substring. *)
Fixpoint contains (q s : string) : bool :=
  String.prefix q s ||
  match s with
  | EmptyString => false
  | String _ s' => contains q s'
  end.

Definition startswith (s p : string) : bool := String.prefix p s.

(** [s.rsplit(sep, 1)[1]]: what follows the last [sep]; [None] when [sep]
    does not occur (the list has one element and index 1 is out of range). *)
Fixpoint rsplit1_tail (sep : ascii) (s : string) : option string :=
  match s with
  | EmptyString => None
  | String c s' =>
      match rsplit1_tail sep s' with
      | Some t => Some t
      | None => if Ascii.eqb c sep then Some s' else None
      end
  end.

(** [str(n)] for an [int]. *)
Definition str_int (n : Z) : string := NilZero.string_of_int (Z.to_int n).

Definition digit_val (c : ascii) : option Z :=
  if between 48 57 c then Some (Z.of_N (code c) - 48) else None.

(** The digits of a decimal literal, with single underscores allowed
    between digits: [acc] is the value read so far, [after_digit] tells
    whether the previous character was a digit. *)
Fixpoint int_digits (acc : Z) (after_digit : bool) (s : string) : option Z :=
  match s with
  | EmptyString => if after_digit then Some acc else None
  | String c s' =>
      match digit_val c with
      | Some d => int_digits (10 * acc + d) true s'
      | None =>
          if Ascii.eqb c "_" && after_digit
          then match s' with
               | EmptyString => None
               | String c' _ =>
                   match digit_val c' with
                   | Some _ => int_digits acc false s'
                   | None => None
                   end
               end
          else None
      end
  end.

(** The characters [int] drops around a numeral: tab to carriage return,
    the space, next line and the no-break space. The separators 28 to 31,
    which [strip] drops, are not among them. *)
Definition isspace_int_char (c : ascii) : bool :=
  between 9 13 c || (code c =? 32)%N || (code c =? 133)%N || (code c =? 160)%N.

Fixpoint lstrip_by (p : ascii -> bool) (s : string) : string :=
  match s with
  | EmptyString => EmptyString
  | String c s' => if p c then lstrip_by p s' else s
  end.

Fixpoint rstrip_by (p : ascii -> bool) (s : string) : string :=
  match s with
  | EmptyString => EmptyString
  | String c s' =>
      match rstrip_by p s' with
      | EmptyString => if p c then EmptyString else String c EmptyString
      | t => String c t
      end
  end.

(** [int(s)]: the surrounding blanks of [isspace_int_char] are dropped, then
    an optional sign and a decimal literal; [None] stands for [ValueError].
    Numerals are taken to be within the interpreter's limit on digits. *)
Definition int_of_str (s : string) : option Z :=
  match rstrip_by isspace_int_char (lstrip_by isspace_int_char s) with
  | String "-" t => option_map Z.opp (int_digits 0 false t)
  | String "+" t => int_digits 0 false t
  | t => int_digits 0 false t
  end.

(** [s or ""] for a string [s]. *)
Definition or_empty (s : string) : string :=
  match s with
  | EmptyString => ""
  | _ => s
  end.

Definition nl : string := String (ascii_of_N 10) EmptyString.

End PyStr.

(** ** Exceptions and results *)

(** The exception classes the program can meet, all below [Exception]. *)
Inductive exn_class : Set :=
| Exception
| ValueError
| IndexError
| OSError
| ProcessLookupError
| PermissionError
| CalledProcessError
| psutil_Error
| NoSuchProcess
| ZombieProcess
| AccessDenied
| TimeoutExpired.

Definition exn_class_eqb (a b : exn_class) : bool :=
  match a, b with
  | Exception, Exception | ValueError, ValueError | IndexError, IndexError
  | OSError, OSError | ProcessLookupError, ProcessLookupError
  | PermissionError, PermissionError | CalledProcessError, CalledProcessError
  | psutil_Error, psutil_Error | NoSuchProcess, NoSuchProcess
  | ZombieProcess, ZombieProcess | AccessDenied, AccessDenied
  | TimeoutExpired, TimeoutExpired => true
  | _, _ => false
  end.

(** The class and its base classes, most derived first. *)
Definition mro (c : exn_class) : list exn_class :=
  match c with
  | Exception => [Exception]
  | ValueError => [ValueError; Exception]
  | IndexError => [IndexError; Exception]
  | OSError => [OSError; Exception]
  | ProcessLookupError => [ProcessLookupError; OSError; Exception]
  | PermissionError => [PermissionError; OSError; Exception]
  | CalledProcessError => [CalledProcessError; Exception]
  | psutil_Error => [psutil_Error; Exception]
  | NoSuchProcess => [NoSuchProcess; psutil_Error; Exception]
  | ZombieProcess => [ZombieProcess; NoSuchProcess; psutil_Error; Exception]
  | AccessDenied => [AccessDenied; psutil_Error; Exception]
  | TimeoutExpired => [TimeoutExpired; psutil_Error; Exception]
  end.

(** An exception value: its class and [str(e)]. *)
Record exn : Set := Exn { class_of : exn_class; str_exn : string }.

Definition isinstance (e : exn) (c : exn_class) : bool :=
  existsb (exn_class_eqb c) (mro (class_of e)).

Inductive result (A : Type) : Type :=
| Ok (a : A)
| Raise (e : exn).
Arguments Ok {A} a.
Arguments Raise {A} e.

(** ** Data *)

(** [addr(ip, port)] of psutil. *)
Record addr : Set := Addr { ip : string; port : Z }.

(** [c.type]: [SOCK_other s] is any other kind, [s] being [str(c.type)]. *)
Inductive SocketKind : Set :=
| SOCK_STREAM
| SOCK_DGRAM
| SOCK_other (s : string).

(** One entry of [psutil.net_connections]: [laddr] and [raddr] are [None]
    for the empty tuple, [c_status] is [None] when the attribute is missing,
    [c_pid] is [None] for Python's [None]. *)
Record sconn : Set := Sconn {
  c_type : SocketKind;
  c_laddr : option addr;
  c_raddr : option addr;
  c_status : option string;
  c_pid : option Z
}.

(** A row [(proto, laddr, raddr, status, pid, pname)]. *)
Record row : Set := Row {
  r_proto : string;   (* r[0] *)
  r_laddr : string;   (* r[1] *)
  r_raddr : string;   (* r[2] *)
  r_status : string;  (* r[3] *)
  r_pid : Z;          (* r[4] *)
  r_pname : string    (* r[5] *)
}.

(** One line of the table widget: the texts of columns 0 to 5 and the
    arguments bound to the Kill button of column 6. *)
Record table_row : Set := TableRow {
  items : list string;
  kill_args : Z * string * string
}.

Inductive signal : Set := SIGTERM | SIGKILL.

Inductive StandardButton : Set := Yes | No.

(** The widget's attributes; [_all_rows] is [None] until it is assigned. *)
Record PortInspector : Set := Widget {
  search_input : string;
  _all_rows : option (list row);
  table : list table_row;
  status_label : string
}.

Definition set_search_input (w : PortInspector) (text : string) : PortInspector :=
  {| search_input := text; _all_rows := _all_rows w;
     table := table w; status_label := status_label w |}.

Definition set_all_rows (w : PortInspector) (rows : list row) : PortInspector :=
  {| search_input := search_input w; _all_rows := Some rows;
     table := table w; status_label := status_label w |}.

Definition set_table (w : PortInspector) (tbl : list table_row) : PortInspector :=
  {| search_input := search_input w; _all_rows := _all_rows w;
     table := tbl; status_label := status_label w |}.

Definition set_status_label (w : PortInspector) (text : string) : PortInspector :=
  {| search_input := search_input w; _all_rows := _all_rows w;
     table := table w; status_label := text |}.

(** The widget when [setup_ui] returns: an empty search box, table and
    label, and no [_all_rows] yet. *)
Definition initial : PortInspector := Widget "" None [] "".

(** ** The host and the trace *)

(** Every call that leaves the program. *)
Inductive event : Set :=
| EvNetConnections
| EvProcess (pid : Z)
| EvName (pid : Z)
| EvTerminate (pid : Z)
| EvKill (pid : Z)
| EvWait (pid timeout : Z)
| EvCheckCall (argv : list string)
| EvOsKill (pid : Z) (sig : signal)
| EvCritical (title text : string)
| EvInformation (title text : string)
| EvQuestion (title text : string).

(** What the operating system and the operator answer, as transitions of a
    world [W]. A process handle is identified with its pid. *)
Record Host (W : Type) : Type := {
  sys_platform : string;
  net_connections : W -> result (list sconn) * W;
  Process : Z -> W -> result unit * W;
  Process_name : Z -> W -> result string * W;
  Process_terminate : Z -> W -> result unit * W;
  Process_kill : Z -> W -> result unit * W;
  Process_wait : Z -> Z -> W -> result unit * W;
  check_call : list string -> W -> result unit * W;
  os_kill : Z -> signal -> W -> result unit * W;
  question : string -> string -> W -> StandardButton * W
}.
Arguments sys_platform {W} _.
Arguments net_connections {W} _ _.
Arguments Process {W} _ _ _.
Arguments Process_name {W} _ _ _.
Arguments Process_terminate {W} _ _ _.
Arguments Process_kill {W} _ _ _.
Arguments Process_wait {W} _ _ _ _.
Arguments check_call {W} _ _ _.
Arguments os_kill {W} _ _ _ _.
Arguments question {W} _ _ _ _.

(** ** Pure parts of the program *)

Import PyStr.

Definition format_local_addr (a : option addr) : string :=
  match a with
  | None => ""
  | Some a => ip a +:+ ":" +:+ str_int (port a)
  end.

(** The key of [refresh.sort_key]; an exception inside the [try] gives
    port 0. *)
Definition sort_key (r : row) : Z * string * string :=
  let port :=
    match (if contains ":" (r_laddr r)
           then match rsplit1_tail ":" (r_laddr r) with
                | Some t => int_of_str t
                | None => None
                end
           else Some 0)
    with
    | Some p => p
    | None => 0
    end in
  (port, r_proto r, or_empty (r_pname r)).

(** [a < b] on key tuples: the first component that differs decides. *)
Definition key_ltb (a b : Z * string * string) : bool :=
  let '(p1, l1, n1) := a in
  let '(p2, l2, n2) := b in
  if p1 =? p2
  then if String.eqb l1 l2 then String.ltb n1 n2 else String.ltb l1 l2
  else p1 <? p2.

(** [rows.sort(key=sort_key)]: a stable sort that compares keys with [<].
    [insert_row r l] puts [r] before the first row whose key is not below
    that of [r]; [r] came before the rows of [l], so ties keep their order. *)
Fixpoint insert_row (r : row) (l : list row) : list row :=
  match l with
  | [] => [r]
  | x :: l' =>
      if key_ltb (sort_key x) (sort_key r)
      then x :: insert_row r l'
      else r :: l
  end.

Fixpoint sort_rows (l : list row) : list row :=
  match l with
  | [] => []
  | r :: l' => insert_row r (sort_rows l')
  end.

(** One line of [populate_table]. *)
Definition table_row_of (row_data : row) : table_row :=
  let pid_text := if 0 <? r_pid row_data then str_int (r_pid row_data) else "" in
  {| items := [r_proto row_data; r_laddr row_data; r_raddr row_data;
               r_status row_data; pid_text; or_empty (r_pname row_data)];
     kill_args := (r_pid row_data, r_pname row_data, r_laddr row_data) |}.

(** The test of the numeric branch of [apply_filter]. *)
Definition numeric_match (q : string) (r : row) : bool :=
  isdigit q &&
  (contains q (r_laddr r) || contains q (r_raddr r) || String.eqb q (str_int (r_pid r))).

(** The test of the substring branch of [apply_filter]. *)
Definition text_match (q : string) (r : row) : bool :=
  contains q (lower (or_empty (r_pname r))) ||
  contains q (lower (or_empty (r_proto r))) ||
  contains q (lower (or_empty (r_laddr r))) ||
  contains q (lower (or_empty (r_raddr r))) ||
  contains q (lower (or_empty (r_status r))).

(** The body of the loop of [apply_filter] for one row [r]: [filtered] is
    the list built so far; the first branch ends with [continue]. *)
Definition filter_step (q : string) (filtered : list row) (r : row) : list row :=
  if numeric_match q r
  then filtered ++ [r]
  else
    if text_match q r
    then filtered ++ [r]
    else filtered.

Definition filter_rows (q : string) (all_rows : list row) : list row :=
  fold_left (filter_step q) all_rows [].

(** ** The order of the sort keys *)

(** Python's [<] and [<=] on [str]: by code point, a proper prefix first. *)
Definition str_lt (a b : string) : Prop := String.compare a b = Lt.
Definition str_le (a b : string) : Prop := String.compare a b <> Gt.

(** [a <= b] on key tuples: port, then protocol label, then process name. *)
Definition key_le (a b : Z * string * string) : Prop :=
  let '(p1, l1, n1) := a in
  let '(p2, l2, n2) := b in
  p1 < p2 \/ (p1 = p2 /\ (str_lt l1 l2 \/ (l1 = l2 /\ str_le n1 n2))).

Definition row_le (a b : row) : Prop := key_le (sort_key a) (sort_key b).

Definition key_eqb (a b : Z * string * string) : bool :=
  let '(p1, l1, n1) := a in
  let '(p2, l2, n2) := b in
  (p1 =? p2) && String.eqb l1 l2 && String.eqb n1 n2.

Definition row_shown (q : string) (r : row) : bool :=
  numeric_match q r || text_match q r.

(** The rows [apply_filter] shows for the query [q]. *)
Definition shown_rows (q : string) (all_rows : list row) : list row :=
  if String.eqb q "" then all_rows else filter_rows q all_rows.

(** ** The effectful program *)

Section Program.

Context {W : Type} (host : Host W).

Record state : Type := State { self : PortInspector; world : W }.

(** A computation: from a state to a result, the state left behind and the
    calls made. *)
Definition M (A : Type) : Type := state -> result A * state * list event.

Definition ret {A} (a : A) : M A := fun s => (Ok a, s, []).

Definition bind {A B} (m : M A) (f : A -> M B) : M B :=
  fun s =>
    match m s with
    | (Ok a, s1, t1) => let '(r, s2, t2) := f a s1 in (r, s2, t1 ++ t2)
    | (Raise e, s1, t1) => (Raise e, s1, t1)
    end.

(** [try: m except Exception as e: h e]. *)
Definition try_except {A} (m : M A) (h : exn -> M A) : M A :=
  fun s =>
    match m s with
    | (Ok a, s1, t1) => (Ok a, s1, t1)
    | (Raise e, s1, t1) => let '(r, s2, t2) := h e s1 in (r, s2, t1 ++ t2)
    end.

Definition raise {A} (e : exn) : M A := fun s => (Raise e, s, []).

Definition call {A} (ev : event) (f : W -> result A * W) : M A :=
  fun s => let '(r, w) := f (world s) in (r, State (self s) w, [ev]).

Definition emit (ev : event) : M unit := fun s => (Ok tt, s, [ev]).

Definition get_self : M PortInspector := fun s => (Ok (self s), s, []).

Definition set_self (w : PortInspector) : M unit :=
  fun s => (Ok tt, State w (world s), []).

Notation "x <- m ;; k" := (bind m (fun x => k))
  (at level 20, m at level 99, k at level 200, only parsing).
Notation "' pat <- m ;; k" := (bind m (fun x => match x with pat => k end))
  (at level 20, pat pattern, m at level 99, k at level 200, only parsing).
Notation "m ;;; k" := (bind m (fun _ => k))
  (at level 100, k at level 200, only parsing, right associativity).

Fixpoint foldM {A B} (f : B -> A -> M B) (l : list A) (acc : B) : M B :=
  match l with
  | [] => ret acc
  | x :: l' => acc' <- f acc x ;; foldM f l' acc'
  end.

Definition safe_proc_name (pid : Z) : M string :=
  try_except
    (call (EvProcess pid) (Process host pid) ;;;
     call (EvName pid) (Process_name host pid))
    (fun _ => ret "<unknown>").

Definition populate_table (rows : list row) : M unit :=
  w <- get_self ;;
  let cleared := [] in
  let tbl := fold_left (fun t row_data => t ++ [table_row_of row_data]) rows cleared in
  set_self (set_table w tbl).

Definition apply_filter : M unit :=
  w <- get_self ;;
  let q := lower (strip (search_input w)) in
  match _all_rows w with
  | None => ret tt
  | Some all_rows =>
      if String.eqb q ""
      then populate_table all_rows
      else populate_table (filter_rows q all_rows)
  end.

(** The body of the loop of [refresh] for one connection [c]. *)
Definition row_of_conn (rows : list row) (c : sconn) : M (list row) :=
  let pid := match c_pid c with Some p => p | None => -1 end in
  let proto := match c_type c with
               | SOCK_STREAM => "TCP"
               | SOCK_DGRAM => "UDP"
               | SOCK_other s => s
               end in
  let laddr := match c_laddr c with Some _ => format_local_addr (c_laddr c) | None => "" end in
  let raddr := match c_raddr c with Some _ => format_local_addr (c_raddr c) | None => "" end in
  let status := match c_status c with Some st => st | None => "" end in
  pname <- (if 0 <? pid then safe_proc_name pid else ret "") ;;
  ret (rows ++ [Row proto laddr raddr status pid pname]).

Definition refresh : M unit :=
  got <- try_except
           (conns <- call EvNetConnections (net_connections host) ;; ret (Some conns))
           (fun e =>
              emit (EvCritical "Error"
                      ("Failed to enumerate connections:" +:+ nl +:+ str_exn e)) ;;;
              ret None) ;;
  match got with
  | None => ret tt
  | Some conns =>
      rows <- foldM row_of_conn conns [] ;;
      let rows := sort_rows rows in
      w <- get_self ;;
      set_self (set_all_rows w rows) ;;;
      populate_table rows ;;;
      apply_filter ;;;
      w <- get_self ;;
      set_self (set_status_label w (str_int (Z.of_nat (length rows)) +:+ " socket(s) found"))
  end.

(** The [try] block of [try_kill_pid]. *)
Definition try_kill_body (pid : Z) : M (bool * string) :=
  call (EvProcess pid) (Process host pid) ;;;
  call (EvTerminate pid) (Process_terminate host pid) ;;;
  try_except
    (call (EvWait pid 3) (Process_wait host pid 3) ;;;
     ret (true, "terminated"))
    (fun e =>
       if isinstance e TimeoutExpired
       then call (EvKill pid) (Process_kill host pid) ;;;
            call (EvWait pid 3) (Process_wait host pid 3) ;;;
            ret (true, "killed")
       else raise e).

(** The body of [except Exception as e] of [try_kill_pid]. *)
Definition try_kill_fallback (pid : Z) (e : exn) : M (bool * string) :=
  if startswith (sys_platform host) "win"
  then
    try_except
      (call (EvCheckCall ["taskkill"; "/PID"; str_int pid; "/F"])
            (check_call host ["taskkill"; "/PID"; str_int pid; "/F"]) ;;;
       ret (true, "taskkill"))
      (fun e2 => ret (false, str_exn e +:+ "; taskkill failed: " +:+ str_exn e2))
  else
    sent <- try_except
              (call (EvOsKill pid SIGTERM) (os_kill host pid SIGTERM) ;;;
               ret None)
              (fun e3 =>
                 if isinstance e3 PermissionError
                 then ret (Some (false, "permission denied: " +:+ str_exn e3))
                 else ret (Some (false, str_exn e3))) ;;
    match sent with
    | Some r => ret r
    | None => ret (true, "SIGTERM sent")
    end.

Definition try_kill_pid (pid : Z) : M (bool * string) :=
  try_except
    (try_kill_body pid)
    (fun e =>
       if isinstance e NoSuchProcess || isinstance e ProcessLookupError
       then ret (false, "process not found")
       else if isinstance e Exception
       then try_kill_fallback pid e
       else raise e).

Definition on_kill_clicked (pid : Z) (pname local_addr : string) : M unit :=
  if (pid =? 0) || (pid <=? 0)
  then emit (EvInformation "No PID" "This socket is not associated with a visible PID.")
  else
    let text := "Really kill process " +:+ or_empty pname +:+ " (PID " +:+ str_int pid
                +:+ ")?" +:+ nl +:+ "This will free " +:+ local_addr +:+ " if it owns it." in
    reply <- call (EvQuestion "Confirm Kill" text)
                  (fun w => let '(b, w') := question host "Confirm Kill" text w in (Ok b, w')) ;;
    match reply with
    | No => ret tt
    | Yes =>
        '(success, msg) <- try_kill_pid pid ;;
        if success : bool
        then emit (EvInformation "Killed"
                     ("Successfully signaled PID " +:+ str_int pid +:+ ".")) ;;;
             refresh
        else emit (EvCritical "Failed"
                     ("Failed to kill PID " +:+ str_int pid +:+ ":" +:+ nl +:+ msg))
    end.

(** What can run after [setup_ui]: [refresh] (from [__init__], the timer or
    the Refresh button), [apply_filter] when the text of the search box
    changes, and [on_kill_clicked] from a Kill button. *)
Inductive action : Set :=
| Refresh
| TextChanged (text : string)
| KillClicked (pid : Z) (pname local_addr : string).

Definition perform (a : action) : M unit :=
  match a with
  | Refresh => refresh
  | TextChanged text =>
      w <- get_self ;;
      set_self (set_search_input w text) ;;;
      apply_filter
  | KillClicked pid pname local_addr => on_kill_clicked pid pname local_addr
  end.

End Program.

Arguments state W : clear implicits.
Arguments M W A : clear implicits.
Arguments State {W} _ _.
Arguments self {W} _.
Arguments world {W} _.

(** ** Notions used in the statements *)

Section Notions.

Context {W : Type} (host : Host W).

Implicit Types (s : state W) (pid : Z) (e : exn).

(** The query [apply_filter] reads from the search box. *)
Definition query_of s : string := lower (strip (search_input (self s))).

(** The table of the widget after [apply_filter]. *)
Definition table_after_filter s : list table_row :=
  table (self (snd (fst (apply_filter s)))).

(** A row against the connection it was built from. *)
Definition row_built_from (c : sconn) (r : row) : Prop :=
  r_pid r = match c_pid c with Some p => p | None => -1 end /\
  r_proto r = match c_type c with
              | SOCK_STREAM => "TCP"
              | SOCK_DGRAM => "UDP"
              | SOCK_other t => t
              end /\
  r_laddr r = format_local_addr (c_laddr c) /\
  r_raddr r = format_local_addr (c_raddr c) /\
  r_status r = match c_status c with Some st => st | None => "" end /\
  (r_pid r <= 0 -> r_pname r = "").

(** An event is a name lookup for a positive pid. *)
Definition positive_lookup (ev : event) : Prop :=
  exists p, 0 < p /\ (ev = EvProcess p \/ ev = EvName p).

(** What a refresh stores when enumeration succeeded with [built] as the
    rows of the loop. *)
Definition refreshed (w : PortInspector) (built : list row) : PortInspector :=
  let rows := sort_rows built in
  set_status_label
    (set_table (set_all_rows w rows)
       (map table_row_of
          (shown_rows (lower (strip (search_input w))) rows)))
    (str_int (Z.of_nat (length rows)) +:+ " socket(s) found").

(** The states the widget can be in: the initial one, and those reached by
    an action or by the world moving on by itself. *)
Inductive reachable : state W -> Prop :=
| reach_initial (w : W) : reachable (State initial w)
| reach_world (s : state W) (w : W) : reachable s -> reachable (State (self s) w)
| reach_action (s : state W) (a : action) :
    reachable s -> reachable (snd (fst (perform host a s))).

(** What holds of the widget between actions: the stored snapshot is sorted,
    its rows without a pid have no name, and the table shows the snapshot
    filtered by the text of the search box (nothing before the first
    snapshot). *)
Definition consistent (w : PortInspector) : Prop :=
  match _all_rows w with
  | None => table w = []
  | Some rows =>
      StronglySorted row_le rows /\
      (forall r, In r rows -> r_pid r <= 0 -> r_pname r = "") /\
      table w = map table_row_of (shown_rows (lower (strip (search_input w))) rows)
  end.

Definition taskkill_argv pid : list string := ["taskkill"; "/PID"; str_int pid; "/F"].

(** The process was found and signalled, and neither bounded wait saw it
    exit: both calls of [wait] raised [TimeoutExpired], the second one
    [e2], leaving the world [w5]. *)
Definition waits_exhausted pid (w0 : W) (e2 : exn) (w5 : W) : Prop :=
  exists w1 w2 e1 w3 w4,
    Process host pid w0 = (Ok tt, w1) /\
    Process_terminate host pid w1 = (Ok tt, w2) /\
    Process_wait host pid 3 w2 = (Raise e1, w3) /\
    isinstance e1 TimeoutExpired = true /\
    Process_kill host pid w3 = (Ok tt, w4) /\
    Process_wait host pid 3 w4 = (Raise e2, w5) /\
    isinstance e2 TimeoutExpired = true.

Definition exhausted_trace pid : list event :=
  [EvProcess pid; EvTerminate pid; EvWait pid 3; EvKill pid; EvWait pid 3].

End Notions.

(** ** A scripted host

    A host whose answers are read off a script: the answers to the
    successive calls of [net_connections] and of [wait] are consumed from
    lists (an exhausted list answers with success), the other calls are
    answered by fixed tables. It is used to run the program on examples. *)

Module Scripted.

Record script : Type := Script {
  connections : list (result (list sconn));
  process_of : Z -> result unit;
  name_of : Z -> result string;
  on_terminate : Z -> result unit;
  on_kill : Z -> result unit;
  waits : list (result unit);
  on_check_call : result unit;
  on_os_kill : Z -> result unit;
  reply : StandardButton
}.

Definition pop_connections (w : script) : result (list sconn) * script :=
  match connections w with
  | [] => (Ok [], w)
  | r :: rest =>
      (r, Script rest (process_of w) (name_of w) (on_terminate w)
            (on_kill w) (waits w) (on_check_call w) (on_os_kill w) (reply w))
  end.

Definition pop_wait (w : script) : result unit * script :=
  match waits w with
  | [] => (Ok tt, w)
  | r :: rest =>
      (r, Script (connections w) (process_of w) (name_of w)
            (on_terminate w) (on_kill w) rest (on_check_call w) (on_os_kill w) (reply w))
  end.

Definition host (pf : string) : Host script := {|
  sys_platform := pf;
  net_connections := pop_connections;
  Process := fun pid w => (process_of w pid, w);
  Process_name := fun pid w => (name_of w pid, w);
  Process_terminate := fun pid w => (on_terminate w pid, w);
  Process_kill := fun pid w => (on_kill w pid, w);
  Process_wait := fun _ _ w => pop_wait w;
  check_call := fun _ w => (on_check_call w, w);
  os_kill := fun pid _ w => (on_os_kill w pid, w);
  question := fun _ _ w => (reply w, w)
|}.

(** The answers of a quiet machine: every call succeeds, no sockets, every
    process is called [proc]. *)
Definition quiet : script :=
  Script [] (fun _ => Ok tt) (fun _ => Ok "proc") (fun _ => Ok tt)
    (fun _ => Ok tt) [] (Ok tt) (fun _ => Ok tt) Yes.

Definition fresh : PortInspector := initial.

End Scripted.

(** ** Example data *)

Module Examples.

Import Scripted.

Definition dns_row : row := Row "UDP" "0.0.0.0:53" "" "NONE" (-1) "".
Definition nginx_row : row := Row "TCP" "127.0.0.1:8080" "" "LISTEN" 4242 "nginx".
Definition ssh_row : row := Row "TCP" "0.0.0.0:22" "" "LISTEN" 811 "sshd".

Definition snapshot : list row := [ssh_row; dns_row; nginx_row].

(** A widget showing [snapshot] with [text] typed in the search box. *)
Definition searching (text : string) : PortInspector :=
  Widget text (Some snapshot) (map table_row_of snapshot) "3 socket(s) found".

(** Four connections with local ports 80, 22, none and 80. *)
Definition conns : list sconn :=
  [Sconn SOCK_DGRAM (Some (Addr "0.0.0.0" 80)) None (Some "NONE") (Some 300);
   Sconn SOCK_STREAM (Some (Addr "0.0.0.0" 22)) None (Some "LISTEN") (Some 811);
   Sconn SOCK_STREAM None None (Some "NONE") None;
   Sconn SOCK_STREAM (Some (Addr "127.0.0.1" 80)) None (Some "LISTEN") (Some 4242)].

Definition names (pid : Z) : result string :=
  if pid =? 811 then Ok "sshd"
  else if pid =? 4242 then Ok "nginx"
  else Raise (Exn AccessDenied "(pid=300)").

(** Enumeration answers with [conns]; the name of pid 300 cannot be read. *)
Definition listing : script :=
  Script [Ok conns] (fun _ => Ok tt) names (fun _ => Ok tt) (fun _ => Ok tt) []
    (Ok tt) (fun _ => Ok tt) Yes.

(** Enumeration fails once, then answers with [conns]. *)
Definition failing_once : script :=
  Script [Raise (Exn PermissionError "[Errno 13] Permission denied"); Ok conns]
    (fun _ => Ok tt) names (fun _ => Ok tt) (fun _ => Ok tt) []
    (Ok tt) (fun _ => Ok tt) Yes.

(** Every call succeeds; process names as in [names]. *)
Definition settled : script :=
  Script [] (fun _ => Ok tt) names (fun _ => Ok tt) (fun _ => Ok tt) []
    (Ok tt) (fun _ => Ok tt) Yes.

Definition timeout : exn := Exn TimeoutExpired "timeout after 3 seconds (pid=4242)".

(** The process is there and can be signalled, and never exits. *)
Definition never_exits : script :=
  Script [] (fun _ => Ok tt) names (fun _ => Ok tt) (fun _ => Ok tt)
    [Raise timeout; Raise timeout] (Ok tt) (fun _ => Ok tt) Yes.

(** The process exits only once killed. *)
Definition exits_when_killed : script :=
  Script [] (fun _ => Ok tt) names (fun _ => Ok tt) (fun _ => Ok tt)
    [Raise timeout] (Ok tt) (fun _ => Ok tt) Yes.

(** There is no such process. *)
Definition gone : script :=
  Script [] (fun _ => Raise (Exn NoSuchProcess "process PID not found (pid=4242)"))
    names (fun _ => Ok tt) (fun _ => Ok tt) [] (Ok tt) (fun _ => Ok tt) Yes.

Definition denied : exn := Exn AccessDenied "(pid=4)".

(** The process may not be signalled, and [taskkill] exits with status 1. *)
Definition not_permitted : script :=
  Script [] (fun _ => Ok tt) names (fun _ => Raise denied) (fun _ => Raise denied) []
    (Raise (Exn CalledProcessError "Command taskkill returned non-zero exit status 1."))
    (fun _ => Raise (Exn PermissionError "[Errno 1] Operation not permitted")) Yes.

(** Four connections with local ports 80, 22, none and 80, the two of port
    80 with the same protocol. *)
Definition conns_tied : list sconn :=
  [Sconn SOCK_STREAM (Some (Addr "0.0.0.0" 80)) None (Some "LISTEN") (Some 4242);
   Sconn SOCK_STREAM (Some (Addr "0.0.0.0" 22)) None (Some "LISTEN") (Some 811);
   Sconn SOCK_DGRAM None None (Some "NONE") None;
   Sconn SOCK_STREAM (Some (Addr "::" 80)) None (Some "LISTEN") (Some 77)].

Definition names_tied (pid : Z) : result string :=
  if pid =? 77 then Ok "apache" else names pid.

(** Enumeration answers with [conns_tied]. *)
Definition listing_tied : script :=
  Script [Ok conns_tied] (fun _ => Ok tt) names_tied (fun _ => Ok tt) (fun _ => Ok tt) []
    (Ok tt) (fun _ => Ok tt) Yes.

(** [psutil.Process] refuses a pid that is not positive, as psutil does;
    every other call succeeds. *)
Definition refusing_bad_pids : script :=
  Script []
    (fun pid => if 0 <? pid then Ok tt
                else Raise (Exn ValueError "pid must be a positive integer"))
    names (fun _ => Ok tt) (fun _ => Ok tt) [] (Ok tt) (fun _ => Ok tt) Yes.

End Examples.

(** ** The order of a snapshot, read off the connections *)

(** The local port of a connection, 0 when it has no local address. *)
Definition conn_port (c : sconn) : Z :=
  match c_laddr c with
  | Some a => port a
  | None => 0
  end.

(** The protocol label of a connection. *)
Definition conn_label (c : sconn) : string :=
  match c_type c with
  | SOCK_STREAM => "TCP"
  | SOCK_DGRAM => "UDP"
  | SOCK_other t => t
  end.

(** The composite key of a row [r] made from the connection [c]: the
    connection's local port, its protocol label, and the process name the
    row carries. It is stated on the connection, not through [sort_key]. *)
Definition conn_key (cr : sconn * row) : Z * string * string :=
  (conn_port (fst cr), conn_label (fst cr), r_pname (snd cr)).

Definition conn_row_le (a b : sconn * row) : Prop :=
  key_le (conn_key a) (conn_key b).

(** ** Notions for the kill path *)

(** The text of the confirmation box of [on_kill_clicked]. *)
Definition confirm_text (pid : Z) (pname local_addr : string) : string :=
  "Really kill process " +:+ or_empty pname +:+ " (PID " +:+ str_int pid
  +:+ ")?" +:+ nl +:+ "This will free " +:+ local_addr +:+ " if it owns it.".

(** The calls [try_kill_pid] can make for [pid]. *)
Definition kill_calls (pid : Z) : list event :=
  [EvProcess pid; EvTerminate pid; EvWait pid 3; EvKill pid;
   EvCheckCall ["taskkill"; "/PID"; str_int pid; "/F"]; EvOsKill pid SIGTERM].

(** The reasons [try_kill_pid] gives with a success. *)
Definition success_reasons : list string :=
  ["terminated"; "killed"; "taskkill"; "SIGTERM sent"].

(** The event [ev] asks the system to end process [p]: a signal through
    psutil or [os.kill], or the [taskkill] command. *)
Definition signals (ev : event) (p : Z) : Prop :=
  ev = EvTerminate p \/ ev = EvKill p \/ (exists sg, ev = EvOsKill p sg) \/
  ev = EvCheckCall ["taskkill"; "/PID"; str_int p; "/F"].

(** The event is one a refresh can make: the enumeration, its error box, or
    a name lookup for a positive pid. *)
Definition refresh_event (ev : event) : Prop :=
  ev = EvNetConnections \/ (exists text, ev = EvCritical "Error" text) \/
  (exists p, 0 < p /\ (ev = EvProcess p \/ ev = EvName p)).

(** * Properties *)

(** ** Substring test *)

Lemma append_cons (c : ascii) (a b : string) :
  String c a +:+ b = String c (a +:+ b).
Proof. reflexivity. Qed.

Lemma prefix_iff (p s : string) :
  String.prefix p s = true <-> exists b, s = p +:+ b.
Proof.
  revert s; induction p as [|c p IH]; intros s; simpl.
  - split; [intros _; exists s; reflexivity | intros _; destruct s; reflexivity].
  - destruct s as [|d s]; simpl.
    + split; [discriminate | intros [b Hb]; discriminate].
    + destruct (Ascii.ascii_dec c d) as [->|Hcd].
      * rewrite IH. split; intros [b Hb]; exists b;
          rewrite ?append_cons in *; congruence.
      * split; [discriminate | intros [b Hb]; rewrite append_cons in Hb; congruence].
Qed.

(** [contains q s] holds exactly when [s] is [a], then [q], then [b]. *)
Lemma contains_iff (q s : string) :
  contains q s = true <-> exists a b, s = a +:+ q +:+ b.
Proof.
  induction s as [|c s IH].
  - cbn [contains]. rewrite orb_false_r, prefix_iff. split.
    + intros [b Hb]. exists "", b. exact Hb.
    + intros [a [b Hab]]. destruct a; [exists b; exact Hab | discriminate].
  - cbn [contains]. rewrite orb_true_iff, prefix_iff, IH. split.
    + intros [[b Hb] | [a [b Hab]]].
      * exists "", b. exact Hb.
      * exists (String c a), b. rewrite append_cons. congruence.
    + intros [a [b Hab]]. destruct a as [|d a].
      * left. exists b. exact Hab.
      * right. exists a, b. rewrite append_cons in Hab. congruence.
Qed.

(** ** Facts on the order of the sort keys *)

Lemma str_compare_refl (a : string) : String.compare a a = Eq.
Proof.
  destruct (String.compare a a) eqn:E; [reflexivity | |];
    pose proof (String.compare_antisym a a) as H; rewrite E in H; discriminate.
Qed.

Lemma str_lt_trans (a b c : string) : str_lt a b -> str_lt b c -> str_lt a c.
Proof.
  unfold str_lt. intros H1 H2.
  exact (@RelationClasses.StrictOrder_Transitive _ _ String_as_OT.lt_strorder a b c H1 H2).
Qed.

Lemma str_lt_gt (a b : string) : String.compare a b = Gt <-> str_lt b a.
Proof.
  unfold str_lt. rewrite (String.compare_antisym a b).
  destruct (String.compare b a); simpl; split; congruence.
Qed.

Lemma str_le_cases (a b : string) : str_le a b <-> str_lt a b \/ a = b.
Proof.
  unfold str_le, str_lt. split.
  - destruct (String.compare a b) eqn:E; intros H.
    + right. apply String.compare_eq_iff, E.
    + left. reflexivity.
    + congruence.
  - intros [H | ->]; [rewrite H | rewrite str_compare_refl]; discriminate.
Qed.

Lemma str_lt_irrefl (a : string) : ~ str_lt a a.
Proof. unfold str_lt. rewrite str_compare_refl. discriminate. Qed.

Lemma str_le_trans (a b c : string) : str_le a b -> str_le b c -> str_le a c.
Proof.
  rewrite !str_le_cases. intros [H1 | ->] [H2 | ->]; auto.
  left. eapply str_lt_trans; eassumption.
Qed.

(** The boolean test of the sort is the negation of [key_le]. *)
Lemma key_ltb_false (a b : Z * string * string) :
  key_ltb b a = false <-> key_le a b.
Proof.
  destruct a as [[p1 l1] n1], b as [[p2 l2] n2]. unfold key_ltb, key_le.
  destruct (Z.eqb_spec p2 p1) as [->|Hp].
  - destruct (String.eqb_spec l2 l1) as [->|Hl].
    + unfold String.ltb. destruct (String.compare n2 n1) eqn:E.
      * apply String.compare_eq_iff in E as ->. split; [intros _|reflexivity].
        right. split; [reflexivity|]. right. split; [reflexivity|].
        apply str_le_cases. now right.
      * split; [discriminate|]. intros [H | [_ [H | [_ H]]]]; [lia | | ].
        -- now apply str_lt_irrefl in H.
        -- apply str_le_cases in H as [H | ->].
           ++ destruct (str_lt_irrefl n1). eapply str_lt_trans; eassumption.
           ++ now apply str_lt_irrefl in E.
      * split; [intros _|reflexivity].
        right. split; [reflexivity|]. right. split; [reflexivity|].
        apply str_le_cases. left. apply str_lt_gt, E.
    + unfold String.ltb. destruct (String.compare l2 l1) eqn:E.
      * apply String.compare_eq_iff in E. congruence.
      * split; [discriminate|]. intros [H | [_ [H | [H _]]]]; [lia | | congruence].
        destruct (str_lt_irrefl l1). eapply str_lt_trans; eassumption.
      * split; [intros _|reflexivity].
        right. split; [reflexivity|]. left. apply str_lt_gt, E.
  - destruct (Z.ltb_spec p2 p1) as [Hlt|Hge].
    + split; [discriminate|]. intros [H | [H _]]; lia.
    + split; [intros _|reflexivity]. left. lia.
Qed.

Lemma key_le_refl (a : Z * string * string) : key_le a a.
Proof.
  destruct a as [[p l] n]. right. split; [reflexivity|]. right.
  split; [reflexivity|]. apply str_le_cases. now right.
Qed.

Lemma key_le_trans (a b c : Z * string * string) :
  key_le a b -> key_le b c -> key_le a c.
Proof.
  destruct a as [[p1 l1] n1], b as [[p2 l2] n2], c as [[p3 l3] n3]. unfold key_le.
  intros [H1 | [-> [H1 | [-> H1]]]] [H2 | [-> [H2 | [-> H2]]]];
    try (left; lia); right; (split; [reflexivity|]).
  - left. eapply str_lt_trans; eassumption.
  - left. assumption.
  - left. assumption.
  - right. split; [reflexivity|]. eapply str_le_trans; eassumption.
Qed.

Lemma key_le_total (a b : Z * string * string) : key_le a b \/ key_le b a.
Proof.
  destruct (key_ltb b a) eqn:E.
  - right. apply key_ltb_false. destruct (key_ltb a b) eqn:E'; [|reflexivity].
    exfalso. destruct a as [[p1 l1] n1], b as [[p2 l2] n2]. unfold key_ltb in *.
    rewrite (Z.eqb_sym p1 p2), (String.eqb_sym l1 l2) in E'.
    destruct (Z.eqb_spec p2 p1).
    + destruct (String.eqb_spec l2 l1); unfold String.ltb in *.
      * rewrite (String.compare_antisym n1 n2) in E'.
        destruct (String.compare n2 n1); simpl in *; discriminate.
      * rewrite (String.compare_antisym l1 l2) in E'.
        destruct (String.compare l2 l1); simpl in *; discriminate.
    + apply Z.ltb_lt in E, E'. lia.
  - left. apply key_ltb_false, E.
Qed.

#[global] Instance row_le_trans : Transitive row_le.
Proof. intros a b c. apply key_le_trans. Qed.

(** ** The sort *)

Lemma insert_row_perm (r : row) (l : list row) :
  Permutation (r :: l) (insert_row r l).
Proof.
  induction l as [|x l IH]; cbn [insert_row sort_rows List.filter].
  - reflexivity.
  - destruct (key_ltb (sort_key x) (sort_key r)).
    + apply perm_trans with (x :: r :: l); [apply perm_swap | apply perm_skip, IH].
    + reflexivity.
Qed.

Lemma sort_rows_perm (l : list row) : Permutation l (sort_rows l).
Proof.
  induction l as [|r l IH]; cbn [insert_row sort_rows List.filter].
  - constructor.
  - apply perm_trans with (r :: sort_rows l); [apply perm_skip, IH | apply insert_row_perm].
Qed.

Lemma insert_row_sorted (r : row) (l : list row) :
  Sorted row_le l -> Sorted row_le (insert_row r l).
Proof.
  induction 1 as [|x l Hs IH Hhd]; cbn [insert_row sort_rows List.filter].
  - repeat constructor.
  - destruct (key_ltb (sort_key x) (sort_key r)) eqn:E.
    + constructor; [exact IH|].
      assert (Hxr : row_le x r).
      { destruct (key_le_total (sort_key x) (sort_key r)) as [H|H]; [exact H|].
        apply key_ltb_false in H. congruence. }
      destruct l as [|y l]; cbn [insert_row sort_rows List.filter].
      * constructor. exact Hxr.
      * destruct (key_ltb (sort_key y) (sort_key r)); constructor.
        -- now inversion Hhd.
        -- exact Hxr.
    + constructor.
      * now constructor.
      * constructor. apply key_ltb_false, E.
Qed.

Lemma sort_rows_sorted (l : list row) : StronglySorted row_le (sort_rows l).
Proof.
  apply Sorted_StronglySorted; [exact row_le_trans|].
  induction l as [|r l IH]; cbn [insert_row sort_rows List.filter].
  - constructor.
  - now apply insert_row_sorted.
Qed.

Lemma key_eqb_eq (a b : Z * string * string) : key_eqb a b = true <-> a = b.
Proof.
  destruct a as [[p1 l1] n1], b as [[p2 l2] n2]. unfold key_eqb.
  rewrite !andb_true_iff, Z.eqb_eq, !String.eqb_eq. split.
  - intros [[-> ->] ->]. reflexivity.
  - intros [= -> -> ->]. auto.
Qed.

Lemma key_ltb_irrefl (a : Z * string * string) : key_ltb a a = false.
Proof. apply key_ltb_false, key_le_refl. Qed.

(** The sort is stable: rows with the same key keep their relative order. *)
Lemma sort_rows_stable (k : Z * string * string) (l : list row) :
  List.filter (fun r => key_eqb (sort_key r) k) (sort_rows l) =
  List.filter (fun r => key_eqb (sort_key r) k) l.
Proof.
  induction l as [|r l IH]; cbn [insert_row sort_rows List.filter]; [reflexivity|].
  rewrite <- IH. generalize (sort_rows l) as m. clear IH.
  induction m as [|x m IHm]; cbn [insert_row sort_rows List.filter]; [reflexivity|].
  destruct (key_ltb (sort_key x) (sort_key r)) eqn:E; cbn [insert_row sort_rows List.filter]; [|reflexivity].
  rewrite IHm. destruct (key_eqb (sort_key r) k) eqn:Er; [|reflexivity].
  destruct (key_eqb (sort_key x) k) eqn:Ex; [|reflexivity].
  apply key_eqb_eq in Er, Ex. rewrite Er, Ex, key_ltb_irrefl in E. discriminate.
Qed.

(** ** The filter loop *)

Lemma or_empty_id (s : string) : or_empty s = s.
Proof. destruct s; reflexivity. Qed.

Lemma filter_step_acc (q : string) (rows acc : list row) :
  fold_left (filter_step q) rows acc = acc ++ List.filter (row_shown q) rows.
Proof.
  revert acc; induction rows as [|r rows IH]; intros acc; cbn [fold_left List.filter].
  - now rewrite app_nil_r.
  - rewrite IH. unfold filter_step, row_shown.
    destruct (numeric_match q r); cbn [orb].
    + now rewrite <- app_assoc.
    + destruct (text_match q r); [now rewrite <- app_assoc | reflexivity].
Qed.

Lemma filter_rows_filter (q : string) (rows : list row) :
  filter_rows q rows = List.filter (row_shown q) rows.
Proof. unfold filter_rows. now rewrite filter_step_acc. Qed.

Lemma filter_sublist {A} (f : A -> bool) (l : list A) : sublist (List.filter f l) l.
Proof.
  induction l as [|x l IH]; cbn [List.filter].
  - constructor.
  - destruct (f x); now constructor.
Qed.

Lemma table_rows_acc (rows : list row) (acc : list table_row) :
  fold_left (fun t row_data => t ++ [table_row_of row_data]) rows acc =
  acc ++ map table_row_of rows.
Proof.
  revert acc; induction rows as [|r rows IH]; intros acc; cbn [fold_left map].
  - now rewrite app_nil_r.
  - rewrite IH. now rewrite <- app_assoc.
Qed.

(** A table line determines the row it was made from. *)
Lemma table_row_of_inj (a b : row) : table_row_of a = table_row_of b -> a = b.
Proof.
  destruct a, b. unfold table_row_of. cbn [r_pid r_pname r_laddr r_proto r_raddr r_status].
  intros [= -> -> -> -> _ _ -> ->]. reflexivity.
Qed.

(** ** Running the program *)

Arguments populate_table : simpl never.
Arguments apply_filter : simpl never.
Arguments safe_proc_name : simpl never.
Arguments row_of_conn : simpl never.
Arguments refresh : simpl never.
Arguments try_kill_body : simpl never.
Arguments try_kill_fallback : simpl never.
Arguments try_kill_pid : simpl never.
Arguments sort_rows : simpl never.
Arguments filter_rows : simpl never.
Arguments table_row_of : simpl never.
Arguments str_int : simpl never.
Arguments lower : simpl never.
Arguments strip : simpl never.
Arguments contains : simpl never.

(** ** Decimal numerals and the port of the key *)

Lemma all_chars_impl (p q : ascii -> bool) (s : string) :
  (forall c, p c = true -> q c = true) -> all_chars p s = true -> all_chars q s = true.
Proof.
  intros Hpq. induction s as [|c s IH]; cbn [all_chars]; [reflexivity|].
  rewrite !andb_true_iff. intros [Hc Hs]. auto.
Qed.

Lemma uint_digits (d : Decimal.uint) :
  all_chars (between 48 57) (NilEmpty.string_of_uint d) = true.
Proof. induction d; cbn [NilEmpty.string_of_uint all_chars]; [reflexivity | rewrite IHd; reflexivity ..]. Qed.

Lemma digit_not_space (c : ascii) :
  between 48 57 c = true -> negb (isspace_int_char c) = true.
Proof.
  unfold isspace_int_char, between. generalize (code c) as n. intros n.
  rewrite andb_true_iff, !N.leb_le. intros [H1 H2].
  repeat match goal with
  | |- context [(?a <=? ?b)%N] => destruct (N.leb_spec a b)
  | |- context [(?a =? ?b)%N] => destruct (N.eqb_spec a b)
  end; cbn; try reflexivity; lia.
Qed.

Lemma lstrip_by_plain (p : ascii -> bool) (s : string) :
  all_chars (fun c => negb (p c)) s = true -> lstrip_by p s = s.
Proof.
  destruct s as [|c s]; cbn [all_chars lstrip_by]; [reflexivity|].
  rewrite andb_true_iff, negb_true_iff. intros [-> _]. reflexivity.
Qed.

Lemma rstrip_by_plain (p : ascii -> bool) (s : string) :
  all_chars (fun c => negb (p c)) s = true -> rstrip_by p s = s.
Proof.
  induction s as [|c s IH]; cbn [all_chars rstrip_by]; [reflexivity|].
  rewrite andb_true_iff, negb_true_iff. intros [Hc Hs]. rewrite (IH Hs), Hc.
  destruct s; reflexivity.
Qed.

Lemma strip_plain (s : string) :
  all_chars (fun c => negb (isspace_int_char c)) s = true ->
  rstrip_by isspace_int_char (lstrip_by isspace_int_char s) = s.
Proof. intros H. rewrite (lstrip_by_plain _ s H). now apply rstrip_by_plain. Qed.

Lemma int_digits_acc (d : Decimal.uint) (acc : positive) :
  int_digits (Z.pos acc) true (NilEmpty.string_of_uint d) =
  Some (Z.pos (Pos.of_uint_acc d acc)).
Proof.
  revert acc; induction d; intros acc;
    cbn [NilEmpty.string_of_uint int_digits Pos.of_uint_acc]; [reflexivity | ..];
    match goal with
    | |- context [digit_val ?c] =>
        let v := eval vm_compute in (digit_val c) in change (digit_val c) with v
    end; cbv beta iota; rewrite <- IHd; f_equal; lia.
Qed.

Lemma int_digits_zero (d : Decimal.uint) (b : bool) :
  d <> Decimal.Nil \/ b = true ->
  int_digits 0 b (NilEmpty.string_of_uint d) = Some (Z.of_N (Pos.of_uint d)).
Proof.
  revert b; induction d; intros b Hb;
    cbn [NilEmpty.string_of_uint int_digits Pos.of_uint];
    try match goal with
    | |- context [digit_val ?c] =>
        let v := eval vm_compute in (digit_val c) in change (digit_val c) with v
    end; cbv beta iota.
  - destruct Hb as [Hb| ->]; [congruence | reflexivity].
  - apply IHd. now right.
  - apply (int_digits_acc d 1).
  - apply (int_digits_acc d 2).
  - apply (int_digits_acc d 3).
  - apply (int_digits_acc d 4).
  - apply (int_digits_acc d 5).
  - apply (int_digits_acc d 6).
  - apply (int_digits_acc d 7).
  - apply (int_digits_acc d 8).
  - apply (int_digits_acc d 9).
Qed.

Lemma to_uint_not_nil (p : positive) : Pos.to_uint p <> Decimal.Nil.
Proof.
  intros H. pose proof (DecimalPos.Unsigned.of_to p) as E. rewrite H in E. discriminate.
Qed.

(** [int(str(n))] is [n]. *)
Lemma int_of_str_int (n : Z) : int_of_str (str_int n) = Some n.
Proof.
  destruct n as [|p|p]; [reflexivity | |].
  - unfold str_int, int_of_str. cbn [Z.to_int NilZero.string_of_int].
    pose proof (to_uint_not_nil p) as Hnil.
    assert (Hs : NilZero.string_of_uint (Pos.to_uint p) = NilEmpty.string_of_uint (Pos.to_uint p))
      by (destruct (Pos.to_uint p); [congruence | reflexivity ..]).
    rewrite Hs.
    pose proof (uint_digits (Pos.to_uint p)) as Hd.
    rewrite strip_plain by (exact (all_chars_impl _ _ _ digit_not_space Hd)).
    pose proof (int_digits_zero (Pos.to_uint p) false (or_introl Hnil)) as Hi.
    rewrite DecimalPos.Unsigned.of_to in Hi. cbn in Hi.
    destruct (NilEmpty.string_of_uint (Pos.to_uint p)) as [|c t] eqn:E; [exact Hi|].
    cbn [all_chars] in Hd. apply andb_true_iff in Hd as [Hc _].
    destruct c as [[] [] [] [] [] [] [] []]; try discriminate Hc; exact Hi.
  - unfold str_int, int_of_str. cbn [Z.to_int NilZero.string_of_int].
    pose proof (to_uint_not_nil p) as Hnil.
    assert (Hs : NilZero.string_of_uint (Pos.to_uint p) = NilEmpty.string_of_uint (Pos.to_uint p))
      by (destruct (Pos.to_uint p); [congruence | reflexivity ..]).
    rewrite Hs.
    pose proof (uint_digits (Pos.to_uint p)) as Hd.
    rewrite strip_plain.
    + rewrite (int_digits_zero (Pos.to_uint p) false (or_introl Hnil)).
      rewrite DecimalPos.Unsigned.of_to. reflexivity.
    + cbn [all_chars]. rewrite (all_chars_impl _ _ _ digit_not_space Hd). reflexivity.
Qed.

Lemma rsplit1_tail_none (sep : ascii) (s : string) :
  all_chars (fun c => negb (Ascii.eqb c sep)) s = true -> rsplit1_tail sep s = None.
Proof.
  induction s as [|c s IH]; cbn [all_chars rsplit1_tail]; [reflexivity|].
  rewrite andb_true_iff, negb_true_iff. intros [Hc Hs]. now rewrite (IH Hs), Hc.
Qed.

Lemma rsplit1_tail_last (sep : ascii) (a t : string) :
  rsplit1_tail sep t = None -> rsplit1_tail sep (a +:+ String sep t) = Some t.
Proof.
  intros Ht. induction a as [|c a IH].
  - change ("" +:+ String sep t) with (String sep t). cbn [rsplit1_tail].
    now rewrite Ht, Ascii.eqb_refl.
  - rewrite append_cons. cbn [rsplit1_tail]. now rewrite IH.
Qed.

Lemma digit_not_colon (c : ascii) : between 48 57 c = true -> negb (Ascii.eqb c ":") = true.
Proof.
  intros H. destruct (Ascii.eqb_spec c ":") as [->|]; [discriminate H | reflexivity].
Qed.

Lemma str_int_no_colon (n : Z) : rsplit1_tail ":" (str_int n) = None.
Proof.
  apply rsplit1_tail_none. unfold str_int.
  assert (Hu : forall d, all_chars (fun c => negb (Ascii.eqb c ":")) (NilZero.string_of_uint d) = true).
  { intros d. destruct d; [reflexivity | ..];
      exact (all_chars_impl _ _ _ digit_not_colon (uint_digits _)). }
  destruct n; cbn [Z.to_int NilZero.string_of_int all_chars]; [reflexivity | apply Hu |].
  rewrite Hu. reflexivity.
Qed.

(** The port of the key is the port of the address the row was made from. *)
Lemma sort_key_port (r : row) (a : addr) :
  r_laddr r = format_local_addr (Some a) ->
  sort_key r = (port a, r_proto r, r_pname r).
Proof.
  intros Hl. unfold sort_key. rewrite Hl, or_empty_id. cbn [format_local_addr].
  assert (Hc : contains ":" (ip a +:+ ":" +:+ str_int (port a)) = true).
  { apply contains_iff. exists (ip a), (str_int (port a)). reflexivity. }
  rewrite Hc.
  change (ip a +:+ ":" +:+ str_int (port a)) with (ip a +:+ String ":" (str_int (port a))).
  rewrite (rsplit1_tail_last _ _ _ (str_int_no_colon (port a))), int_of_str_int.
  reflexivity.
Qed.

Lemma sort_key_no_addr (r : row) :
  r_laddr r = "" -> sort_key r = (0, r_proto r, r_pname r).
Proof. intros Hl. unfold sort_key. rewrite Hl, or_empty_id. reflexivity. Qed.

Lemma sort_key_built (c : sconn) (r : row) :
  row_built_from c r ->
  sort_key r =
  (match c_laddr c with Some a => port a | None => 0 end, r_proto r, r_pname r).
Proof.
  intros (_ & _ & Hl & _). destruct (c_laddr c) as [a|].
  - now apply sort_key_port.
  - now apply sort_key_no_addr.
Qed.

Section Runs.

Context {W : Type} (host : Host W).

Implicit Types (s : state W) (pid : Z).

Lemma populate_table_run rows s :
  populate_table rows s =
  (Ok tt, State (set_table (self s) (map table_row_of rows)) (world s), []).
Proof.
  unfold populate_table, bind, get_self, set_self. cbn.
  now rewrite table_rows_acc.
Qed.

Lemma apply_filter_run s :
  apply_filter s =
  match _all_rows (self s) with
  | None => (Ok tt, s, [])
  | Some all_rows =>
      (Ok tt,
       State (set_table (self s) (map table_row_of (shown_rows (query_of s) all_rows)))
             (world s), [])
  end.
Proof.
  unfold apply_filter, bind, get_self, shown_rows, query_of. cbn.
  destruct (_all_rows (self s)) as [all_rows|]; [|reflexivity].
  destruct (String.eqb _ ""); now rewrite populate_table_run.
Qed.

Lemma safe_proc_name_run pid s :
  safe_proc_name host pid s =
  match Process host pid (world s) with
  | (Raise _, w1) => (Ok "<unknown>", State (self s) w1, [EvProcess pid])
  | (Ok _, w1) =>
      match Process_name host pid w1 with
      | (Ok n, w2) => (Ok n, State (self s) w2, [EvProcess pid; EvName pid])
      | (Raise _, w2) => (Ok "<unknown>", State (self s) w2, [EvProcess pid; EvName pid])
      end
  end.
Proof.
  unfold safe_proc_name, try_except, bind, call, ret. cbn.
  destruct (Process host pid (world s)) as [[u|e] w1]; cbn; [|reflexivity].
  destruct (Process_name host pid w1) as [[n|e] w2]; reflexivity.
Qed.

Lemma row_of_conn_run rows c s :
  exists r w' tr,
    row_of_conn host rows c s = (Ok (rows ++ [r]), State (self s) w', tr) /\
    row_built_from c r /\ Forall positive_lookup tr.
Proof.
  unfold row_of_conn, bind.
  set (pid := match c_pid c with Some p => p | None => -1 end).
  assert (Hl : forall a, match a with Some _ => format_local_addr a | None => "" end
                         = format_local_addr a) by (now intros []).
  rewrite !Hl.
  destruct (Z.ltb_spec 0 pid) as [Hpos|Hneg].
  - rewrite safe_proc_name_run.
    destruct (Process host pid (world s)) as [[u|e] w1].
    + destruct (Process_name host pid w1) as [[n|e] w2]; cbn;
        eexists _, _, _; (split; [reflexivity|]);
        (split; [repeat split; cbn; lia |]);
        repeat constructor; exists pid; auto.
    + cbn. eexists _, _, _. split; [reflexivity|].
      split; [repeat split; cbn; lia |].
      repeat constructor; exists pid; auto.
  - cbn. destruct s as [w0 wd]. eexists _, _, _. split; [reflexivity|].
    split; [repeat split | constructor].
Qed.

Lemma build_rows_run conns : forall rows s,
  exists built w' tr,
    foldM (row_of_conn host) conns rows s = (Ok (rows ++ built), State (self s) w', tr) /\
    Forall2 row_built_from conns built /\ Forall positive_lookup tr.
Proof.
  induction conns as [|c conns IH]; intros rows s; cbn [foldM].
  - destruct s as [w0 wd]. exists [], wd, []. rewrite app_nil_r.
    repeat split; constructor.
  - unfold bind.
    destruct (row_of_conn_run rows c s) as (r & w1 & t1 & -> & Hr & Ht1).
    destruct (IH (rows ++ [r]) (State (self s) w1)) as (built & w2 & t2 & -> & Hb & Ht2).
    exists (r :: built), w2, (t1 ++ t2). rewrite <- app_assoc. cbn.
    repeat split; [now constructor | now apply Forall_app].
Qed.

Lemma refresh_ok s conns w1 :
  net_connections host (world s) = (Ok conns, w1) ->
  exists built w2 tr,
    refresh host s = (Ok tt, State (refreshed (self s) built) w2, EvNetConnections :: tr) /\
    Forall2 row_built_from conns built /\ Forall positive_lookup tr.
Proof.
  intros Hnet. unfold refresh, bind, try_except, call. rewrite Hnet. cbn.
  destruct (build_rows_run conns [] (State (self s) w1)) as (built & w2 & tr & -> & Hb & Ht).
  exists built, w2, tr. cbn. rewrite populate_table_run. cbn.
  rewrite apply_filter_run. cbn. rewrite app_nil_r.
  repeat split; assumption.
Qed.

Lemma refresh_failed s e w1 :
  net_connections host (world s) = (Raise e, w1) ->
  refresh host s =
  (Ok tt, State (self s) w1,
   [EvNetConnections;
    EvCritical "Error" ("Failed to enumerate connections:" +:+ nl +:+ str_exn e)]).
Proof.
  intros Hnet. unfold refresh, bind, try_except, call, emit. rewrite Hnet. reflexivity.
Qed.

End Runs.

(** ** Running [try_kill_pid] *)

Section KillRuns.

Context {W : Type} (host : Host W).

Implicit Types (s : state W) (pid : Z) (e : exn).

Lemma try_kill_fallback_run pid e s :
  try_kill_fallback host pid e s =
  if startswith (sys_platform host) "win"
  then
    match check_call host (taskkill_argv pid) (world s) with
    | (Ok _, w1) =>
        (Ok (true, "taskkill"), State (self s) w1, [EvCheckCall (taskkill_argv pid)])
    | (Raise e2, w1) =>
        (Ok (false, str_exn e +:+ "; taskkill failed: " +:+ str_exn e2),
         State (self s) w1, [EvCheckCall (taskkill_argv pid)])
    end
  else
    match os_kill host pid SIGTERM (world s) with
    | (Ok _, w1) => (Ok (true, "SIGTERM sent"), State (self s) w1, [EvOsKill pid SIGTERM])
    | (Raise e3, w1) =>
        (Ok (false, if isinstance e3 PermissionError
                    then "permission denied: " +:+ str_exn e3
                    else str_exn e3),
         State (self s) w1, [EvOsKill pid SIGTERM])
    end.
Proof.
  unfold try_kill_fallback, taskkill_argv, try_except, bind, call, ret.
  destruct (startswith (sys_platform host) "win").
  - destruct (check_call host _ (world s)) as [[u|e2] w1]; reflexivity.
  - destruct (os_kill host pid SIGTERM (world s)) as [[u|e3] w1]; [reflexivity|].
    cbn. destruct (isinstance e3 PermissionError); reflexivity.
Qed.

(** The fallback always answers, with one call made and the widget as it was. *)
Lemma try_kill_fallback_answers pid e s :
  exists ok reason w1 ev,
    try_kill_fallback host pid e s = (Ok (ok, reason), State (self s) w1, [ev]).
Proof.
  rewrite try_kill_fallback_run.
  destruct (startswith (sys_platform host) "win").
  - destruct (check_call host _ (world s)) as [[u|e2] w1]; eexists _, _, _, _; reflexivity.
  - destruct (os_kill host pid SIGTERM (world s)) as [[u|e3] w1]; eexists _, _, _, _; reflexivity.
Qed.

(** The [try] block leaves the widget as it was. *)
Lemma try_kill_body_self pid s :
  self (snd (fst (try_kill_body host pid s))) = self s.
Proof.
  unfold try_kill_body, try_except, bind, call, ret, raise.
  destruct (Process host pid (world s)) as [[u|e] w1]; cbn; [|reflexivity].
  destruct (Process_terminate host pid w1) as [[u'|e] w2]; cbn; [|reflexivity].
  destruct (Process_wait host pid 3 w2) as [[u''|e] w3]; cbn; [reflexivity|].
  destruct (isinstance e TimeoutExpired); cbn; [|reflexivity].
  destruct (Process_kill host pid w3) as [[u''|e'] w4]; cbn; [|reflexivity].
  destruct (Process_wait host pid 3 w4) as [[u3|e'] w5]; reflexivity.
Qed.

(** How [try_kill_pid] continues after its [try] block. *)
Lemma try_kill_pid_run pid s :
  try_kill_pid host pid s =
  match try_kill_body host pid s with
  | (Ok a, s1, t1) => (Ok a, s1, t1)
  | (Raise e, s1, t1) =>
      if isinstance e NoSuchProcess || isinstance e ProcessLookupError
      then (Ok (false, "process not found"), s1, t1 ++ [])
      else let '(r, s2, t2) := try_kill_fallback host pid e s1 in (r, s2, t1 ++ t2)
  end.
Proof.
  unfold try_kill_pid, try_except.
  destruct (try_kill_body host pid s) as [[[a|e] s1] t1]; [reflexivity|].
  destruct (isinstance e NoSuchProcess || isinstance e ProcessLookupError); [reflexivity|].
  assert (He : isinstance e Exception = true) by (destruct e as [[] m]; reflexivity).
  rewrite He. reflexivity.
Qed.

(** [try_kill_pid] never raises. *)
Lemma try_kill_pid_answers pid s :
  exists ok reason s' tr, try_kill_pid host pid s = (Ok (ok, reason), s', tr).
Proof.
  rewrite try_kill_pid_run.
  destruct (try_kill_body host pid s) as [[[[ok reason]|e] s1] t1].
  - eexists _, _, _, _; reflexivity.
  - destruct (isinstance e NoSuchProcess || isinstance e ProcessLookupError).
    + eexists _, _, _, _; reflexivity.
    + destruct (try_kill_fallback_answers pid e s1) as (ok & reason & w1 & ev & ->).
      eexists _, _, _, _; reflexivity.
Qed.

Lemma waits_exhausted_body pid s e2 w5 :
  waits_exhausted host pid (world s) e2 w5 ->
  try_kill_body host pid s = (Raise e2, State (self s) w5, exhausted_trace pid).
Proof.
  intros (w1 & w2 & e1 & w3 & w4 & H1 & H2 & H3 & T1 & H4 & H5 & T2).
  unfold try_kill_body, try_except, bind, call, ret, raise.
  rewrite H1; cbn. rewrite H2; cbn. rewrite H3; cbn. rewrite T1; cbn.
  rewrite H4; cbn. rewrite H5; cbn. reflexivity.
Qed.

Lemma timeout_not_lookup e :
  isinstance e TimeoutExpired = true ->
  isinstance e NoSuchProcess || isinstance e ProcessLookupError = false.
Proof. destruct e as [[] m]; cbn; congruence. Qed.

Lemma permission_not_lookup e :
  isinstance e AccessDenied || isinstance e PermissionError = true ->
  isinstance e NoSuchProcess || isinstance e ProcessLookupError = false.
Proof. destruct e as [[] m]; cbn; congruence. Qed.

End KillRuns.

(** * The filter *)

Lemma in_shown_table (q : string) (rows : list row) (r : row) :
  In (table_row_of r) (map table_row_of (List.filter (row_shown q) rows)) <->
  In r rows /\ row_shown q r = true.
Proof.
  rewrite <- filter_In. split.
  - intros H. apply in_map_iff in H as (r' & Heq & Hin).
    apply table_row_of_inj in Heq. now subst.
  - apply in_map.
Qed.

Lemma isdigit_nonempty (q : string) : isdigit q = true -> String.eqb q "" = false.
Proof. destruct q; [discriminate | reflexivity]. Qed.

(** C10. When [_all_rows] was never assigned, [apply_filter] returns
    normally, makes no call and leaves the widget and the world exactly as
    they were, whatever the text of the search box. *)
Theorem apply_filter_without_snapshot {W : Type}
    (text : string) (tbl : list table_row) (label : string) (w : W) :
  apply_filter (State (Widget text None tbl label) w) =
  (Ok tt, State (Widget text None tbl label) w, []).
Proof. rewrite apply_filter_run. reflexivity. Qed.

(** C4. On a stored snapshot [rows], [apply_filter] changes the table only:
    it shows the whole of [rows] in order when the query is empty and, for
    any other query, the rows that pass the test, each one once, in the order
    of [rows]; what is shown is always a subsequence of the snapshot. *)
Theorem apply_filter_subsequence {W : Type}
    (text : string) (rows : list row) (tbl : list table_row) (label : string) (w : W) :
  exists shown : list row,
    apply_filter (State (Widget text (Some rows) tbl label) w) =
    (Ok tt, State (Widget text (Some rows) (map table_row_of shown) label) w, []) /\
    (lower (strip text) = "" -> shown = rows) /\
    (lower (strip text) <> "" ->
     shown = List.filter (row_shown (lower (strip text))) rows) /\
    sublist shown rows.
Proof.
  exists (shown_rows (lower (strip text)) rows).
  split; [rewrite apply_filter_run; reflexivity|].
  unfold shown_rows. destruct (String.eqb_spec (lower (strip text)) "") as [Hq|Hq].
  - repeat split; [congruence | reflexivity].
  - rewrite filter_rows_filter. repeat split; [congruence | apply filter_sublist].
Qed.

(** C3. With a stored snapshot and a numeric query [q], a row of the
    snapshot is shown when [q] is its pid written out, or when [q] occurs in
    its local or remote address; a row that passes neither test is still
    shown when [q] occurs in the lower-cased process name, protocol label,
    addresses or status; and no other row is shown. *)
Theorem numeric_query_matches {W : Type}
    (text : string) (rows : list row) (tbl : list table_row) (label : string) (w : W)
    (r : row) :
  let q := lower (strip text) in
  let shown := table_after_filter (State (Widget text (Some rows) tbl label) w) in
  isdigit q = true ->
  In r rows ->
  (q = str_int (r_pid r) -> In (table_row_of r) shown) /\
  (contains q (r_laddr r) = true \/ contains q (r_raddr r) = true ->
   In (table_row_of r) shown) /\
  (contains q (lower (r_pname r)) = true \/ contains q (lower (r_proto r)) = true \/
   contains q (lower (r_laddr r)) = true \/ contains q (lower (r_raddr r)) = true \/
   contains q (lower (r_status r)) = true ->
   In (table_row_of r) shown) /\
  (In (table_row_of r) shown ->
   q = str_int (r_pid r) \/
   contains q (r_laddr r) = true \/ contains q (r_raddr r) = true \/
   contains q (lower (r_pname r)) = true \/ contains q (lower (r_proto r)) = true \/
   contains q (lower (r_laddr r)) = true \/ contains q (lower (r_raddr r)) = true \/
   contains q (lower (r_status r)) = true).
Proof.
  intros q shown Hnum Hin.
  assert (Hshown : shown = map table_row_of (List.filter (row_shown q) rows)).
  { unfold shown, table_after_filter. rewrite apply_filter_run. cbn.
    unfold shown_rows, query_of. cbn. fold q.
    now rewrite (isdigit_nonempty q Hnum), filter_rows_filter. }
  rewrite Hshown, in_shown_table.
  unfold row_shown, numeric_match, text_match. rewrite Hnum, !or_empty_id. cbn [andb].
  rewrite !orb_true_iff, String.eqb_eq.
  repeat split; try assumption; tauto.
Qed.

Lemma numeric_query_matches_witness :
  In (table_row_of Examples.nginx_row)
     (table_after_filter (State (Examples.searching " 4242 ") Scripted.quiet)).
Proof.
  refine (proj1 (numeric_query_matches " 4242 " Examples.snapshot _ _
                   Scripted.quiet Examples.nginx_row _ _) _).
  - reflexivity.
  - right. right. left. reflexivity.
  - reflexivity.
Defined.

(** The query [80] on the example snapshot shows the one row whose address
    contains it. *)
Lemma apply_filter_example :
  table_after_filter (State (Examples.searching "80") Scripted.quiet) =
  [table_row_of Examples.nginx_row].
Proof. reflexivity. Qed.

(** * Refresh *)

Lemma built_rows_absent_pid (conns : list sconn) (built : list row) :
  Forall2 row_built_from conns built ->
  forall r, In r (sort_rows built) -> r_pid r <= 0 -> r_pname r = "".
Proof.
  intros Hb r Hin. apply (Permutation_in _ (Permutation_sym (sort_rows_perm built))) in Hin.
  induction Hb as [|c r' cs rs Hr _ IH]; [contradiction|].
  destruct Hin as [<-|Hin]; [apply Hr | now apply IH].
Qed.

Lemma positive_lookups (tr : list event) :
  Forall positive_lookup tr ->
  forall p, In (EvProcess p) tr \/ In (EvName p) tr -> 0 < p.
Proof.
  intros Ht p Hin. rewrite Stdlib.Lists.List.Forall_forall in Ht.
  destruct Hin as [Hin|Hin]; apply Ht in Hin as (p' & Hp & [Heq|Heq]); congruence.
Qed.

Lemma Forall2_perm {A B} (R : A -> B -> Prop) (l1 : list A) (l2 l2' : list B) :
  Forall2 R l1 l2 -> Permutation l2 l2' ->
  exists l1', Permutation l1' l1 /\ Forall2 R l1' l2'.
Proof.
  intros HF HP. revert l1 HF.
  induction HP as [|x l l' _ IH|x y l|l l' l'' _ IH1 _ IH2]; intros l1 HF.
  - inversion HF; subst. exists []. split; constructor.
  - inversion HF as [|a ? t ? Ha Ht]; subst.
    destruct (IH t Ht) as (t' & Hp & Hf). exists (a :: t').
    split; [now apply perm_skip | now constructor].
  - inversion HF as [|a ? t ? Ha Ht]; subst.
    inversion Ht as [|b ? t' ? Hb Ht']; subst.
    exists (b :: a :: t'). split; [apply perm_swap | now repeat constructor].
  - destruct (IH1 l1 HF) as (m & Hp1 & Hf1).
    destruct (IH2 m Hf1) as (m' & Hp2 & Hf2).
    exists m'. split; [now apply perm_trans with m | exact Hf2].
Qed.

Lemma Forall2_pairs {A B} (R : A -> B -> Prop) (l1 : list A) (l2 : list B) :
  Forall2 R l1 l2 ->
  exists pairs : list (A * B),
    map fst pairs = l1 /\ map snd pairs = l2 /\
    Forall (fun p => R (fst p) (snd p)) pairs.
Proof.
  induction 1 as [|a b l1 l2 Hab _ (pairs & H1 & H2 & HF)].
  - exists []. repeat split. constructor.
  - exists ((a, b) :: pairs). cbn. rewrite H1, H2. repeat split. now constructor.
Qed.

(** The key the sort computes for a row is the key of its connection. *)
Lemma sort_key_conn_key (c : sconn) (r : row) :
  row_built_from c r -> sort_key r = conn_key (c, r).
Proof.
  intros Hb. rewrite (sort_key_built c r Hb).
  destruct Hb as (_ & Hproto & _). unfold conn_key, conn_port, conn_label. cbn [fst snd].
  now rewrite Hproto.
Qed.

Lemma sorted_pairs (pairs : list (sconn * row)) :
  Forall (fun cr => row_built_from (fst cr) (snd cr)) pairs ->
  StronglySorted row_le (map snd pairs) ->
  StronglySorted conn_row_le pairs.
Proof.
  induction 1 as [|[c r] pairs Hcr Hrest IH]; cbn [map snd]; intros Hs; [constructor|].
  inversion Hs as [|? ? Hs' Hall]; subst. constructor; [now apply IH|].
  clear Hs Hs' IH. induction Hrest as [|[c' r'] pairs Hcr' _ IH]; [constructor|].
  cbn [map snd] in Hall. inversion Hall as [|? ? Hle Hall']; subst.
  constructor; [|now apply IH].
  unfold conn_row_le, row_le in *.
  now rewrite <- (sort_key_conn_key c r Hcr), <- (sort_key_conn_key c' r' Hcr').
Qed.

(** C2. A refresh whose enumeration succeeds stores a snapshot that holds
    one row for each connection and is in ascending order of the composite
    key read off the connections: the connection's local port (0 when there
    is none to read), then its protocol label, then the process name of the
    row. For connections with local ports 80, 22, none and 80 the row without
    a port comes first, then port 22, then the two rows of port 80: by
    protocol label when the labels differ, by process name when they are the
    same. *)
Theorem refresh_snapshot_sorted :
  (forall (W : Type) (host : Host W) (s : state W) (conns : list sconn) (w1 : W),
      net_connections host (world s) = (Ok conns, w1) ->
      exists (pairs : list (sconn * row)) s' tr,
        refresh host s = (Ok tt, s', tr) /\
        Permutation (map fst pairs) conns /\
        Forall (fun cr => row_built_from (fst cr) (snd cr)) pairs /\
        _all_rows (self s') = Some (map snd pairs) /\
        StronglySorted conn_row_le pairs) /\
  _all_rows (self (snd (fst (refresh (Scripted.host "linux")
                               (State Scripted.fresh Examples.listing))))) =
  Some [Row "TCP" "" "" "NONE" (-1) "";
        Row "TCP" "0.0.0.0:22" "" "LISTEN" 811 "sshd";
        Row "TCP" "127.0.0.1:80" "" "LISTEN" 4242 "nginx";
        Row "UDP" "0.0.0.0:80" "" "NONE" 300 "<unknown>"] /\
  _all_rows (self (snd (fst (refresh (Scripted.host "linux")
                               (State Scripted.fresh Examples.listing_tied))))) =
  Some [Row "UDP" "" "" "NONE" (-1) "";
        Row "TCP" "0.0.0.0:22" "" "LISTEN" 811 "sshd";
        Row "TCP" ":::80" "" "LISTEN" 77 "apache";
        Row "TCP" "0.0.0.0:80" "" "LISTEN" 4242 "nginx"].
Proof.
  split; [|split; reflexivity].
  intros W host s conns w1 Hnet.
  destruct (refresh_ok host s conns w1 Hnet) as (built & w2 & tr & Hrun & Hb & _).
  destruct (Forall2_perm _ _ _ _ Hb (sort_rows_perm built)) as (conns' & Hperm & Hb').
  destruct (Forall2_pairs _ _ _ Hb') as (pairs & Hfst & Hsnd & Hpairs).
  exists pairs, (State (refreshed (self s) built) w2), (EvNetConnections :: tr).
  repeat split.
  - exact Hrun.
  - now rewrite Hfst.
  - exact Hpairs.
  - cbn. now rewrite Hsnd.
  - apply sorted_pairs; [exact Hpairs|]. rewrite Hsnd. apply sort_rows_sorted.
Qed.

Lemma refresh_snapshot_sorted_witness :
  exists (pairs : list (sconn * row)) s' tr,
    refresh (Scripted.host "linux") (State Scripted.fresh Examples.listing_tied) =
      (Ok tt, s', tr) /\
    Permutation (map fst pairs) Examples.conns_tied /\
    Forall (fun cr => row_built_from (fst cr) (snd cr)) pairs /\
    _all_rows (self s') = Some (map snd pairs) /\
    StronglySorted conn_row_le pairs.
Proof.
  eapply (proj1 refresh_snapshot_sorted _ (Scripted.host "linux")
           (State Scripted.fresh Examples.listing_tied) Examples.conns_tied _).
  reflexivity.
Defined.

(** Rows with the same port and protocol label are ordered by process name,
    and a port that does not read as a number counts as 0. *)
Lemma sort_rows_example :
  sort_rows [Row "TCP" "0.0.0.0:80" "" "LISTEN" 9 "nginx";
             Row "TCP" "[::]:80" "" "LISTEN" 7 "apache";
             Row "TCP" "host:http" "" "LISTEN" 5 "inetd"] =
  [Row "TCP" "host:http" "" "LISTEN" 5 "inetd";
   Row "TCP" "[::]:80" "" "LISTEN" 7 "apache";
   Row "TCP" "0.0.0.0:80" "" "LISTEN" 9 "nginx"].
Proof. reflexivity. Qed.

(** C5. In the snapshot stored by a refresh, a row whose pid is absent
    (the sentinel -1, or any pid not above 0) has the empty process name, and
    the refresh looks up names for positive pids only. *)
Theorem absent_pid_has_empty_name {W : Type} (host : Host W) (s : state W)
    (conns : list sconn) (w1 : W) :
  net_connections host (world s) = (Ok conns, w1) ->
  exists rows s' tr,
    refresh host s = (Ok tt, s', tr) /\
    _all_rows (self s') = Some rows /\
    (forall r, In r rows -> r_pid r <= 0 -> r_pname r = "") /\
    (forall p, In (EvProcess p) tr \/ In (EvName p) tr -> 0 < p).
Proof.
  intros Hnet.
  destruct (refresh_ok host s conns w1 Hnet) as (built & w2 & tr & Hrun & Hb & Ht).
  exists (sort_rows built), (State (refreshed (self s) built) w2), (EvNetConnections :: tr).
  repeat split; [exact Hrun | exact (built_rows_absent_pid conns built Hb) |].
  intros p [[Heq|Hin]|[Heq|Hin]]; try discriminate;
    apply (positive_lookups tr Ht); auto.
Qed.

Lemma absent_pid_has_empty_name_witness :
  exists rows s' tr,
    refresh (Scripted.host "linux") (State Scripted.fresh Examples.listing) = (Ok tt, s', tr) /\
    _all_rows (self s') = Some rows /\
    (forall r, In r rows -> r_pid r <= 0 -> r_pname r = "") /\
    (forall p, In (EvProcess p) tr \/ In (EvName p) tr -> 0 < p).
Proof.
  eapply (absent_pid_has_empty_name (Scripted.host "linux")
           (State Scripted.fresh Examples.listing) Examples.conns _).
  reflexivity.
Defined.

(** C6. When enumeration raises, the refresh shows the error and returns
    with every attribute of the widget as it was, the stored snapshot and the
    table included; a later refresh whose enumeration succeeds stores a new
    snapshot. *)
Theorem refresh_failure_keeps_snapshot {W : Type} (host : Host W) (s : state W)
    (e : exn) (w1 : W) :
  net_connections host (world s) = (Raise e, w1) ->
  refresh host s =
  (Ok tt, State (self s) w1,
   [EvNetConnections;
    EvCritical "Error" ("Failed to enumerate connections:" +:+ nl +:+ str_exn e)]) /\
  (forall conns w2,
      net_connections host w1 = (Ok conns, w2) ->
      exists built s' tr,
        refresh host (State (self s) w1) = (Ok tt, s', tr) /\
        Forall2 row_built_from conns built /\
        _all_rows (self s') = Some (sort_rows built)).
Proof.
  intros Hnet. split; [now apply refresh_failed|].
  intros conns w2 Hnet2.
  destruct (refresh_ok host (State (self s) w1) conns w2 Hnet2)
    as (built & w3 & tr & Hrun & Hb & _).
  exists built, (State (refreshed (self s) built) w3), (EvNetConnections :: tr).
  repeat split; assumption.
Qed.

Lemma refresh_failure_keeps_snapshot_witness :
  snd (fst (refresh (Scripted.host "linux")
              (State (Examples.searching "80") Examples.failing_once))) =
  State (Examples.searching "80") Examples.listing.
Proof.
  pose proof (proj1 (refresh_failure_keeps_snapshot (Scripted.host "linux")
                       (State (Examples.searching "80") Examples.failing_once)
                       _ Examples.listing eq_refl)) as H.
  rewrite H. reflexivity.
Defined.

(** C8. [safe_proc_name] never raises: it returns a name and leaves the
    widget as it was. When the handle cannot be made or the name cannot be
    read, whatever the exception, the name is the sentinel. So a refresh whose
    enumeration succeeds always completes, with one row for each connection,
    whatever the name lookups answer. *)
Theorem safe_proc_name_contains_failures {W : Type} (host : Host W) (pid : Z) (s : state W) :
  (exists name w' tr, safe_proc_name host pid s = (Ok name, State (self s) w', tr)) /\
  (forall e w1,
      Process host pid (world s) = (Raise e, w1) ->
      safe_proc_name host pid s = (Ok "<unknown>", State (self s) w1, [EvProcess pid])) /\
  (forall w1 e w2,
      Process host pid (world s) = (Ok tt, w1) ->
      Process_name host pid w1 = (Raise e, w2) ->
      safe_proc_name host pid s =
      (Ok "<unknown>", State (self s) w2, [EvProcess pid; EvName pid])) /\
  (forall conns w1,
      net_connections host (world s) = (Ok conns, w1) ->
      exists built s' tr,
        refresh host s = (Ok tt, s', tr) /\
        Forall2 row_built_from conns built /\
        _all_rows (self s') = Some (sort_rows built)).
Proof.
  repeat split.
  - rewrite safe_proc_name_run.
    destruct (Process host pid (world s)) as [[u|e] w1]; [|eexists _, _, _; reflexivity].
    destruct (Process_name host pid w1) as [[n|e] w2]; eexists _, _, _; reflexivity.
  - intros e w1 H. rewrite safe_proc_name_run, H. reflexivity.
  - intros w1 e w2 H1 H2. rewrite safe_proc_name_run, H1, H2. reflexivity.
  - intros conns w1 Hnet.
    destruct (refresh_ok host s conns w1 Hnet) as (built & w2 & tr & Hrun & Hb & _).
    exists built, (State (refreshed (self s) built) w2), (EvNetConnections :: tr).
    repeat split; assumption.
Qed.

Lemma safe_proc_name_contains_failures_witness :
  safe_proc_name (Scripted.host "linux") 300 (State Scripted.fresh Examples.listing) =
  (Ok "<unknown>", State Scripted.fresh Examples.listing, [EvProcess 300; EvName 300]).
Proof.
  refine (proj1 (proj2 (proj2 (safe_proc_name_contains_failures (Scripted.host "linux") 300
                                 (State Scripted.fresh Examples.listing))))
            Examples.listing (Exn AccessDenied "(pid=300)") Examples.listing _ _);
    reflexivity.
Defined.

(** * Killing a process *)

(** C9, as amended. The guard on the pid is in [on_kill_clicked], not in
    [try_kill_pid]: for a pid not above 0, [on_kill_clicked] shows the notice
    titled [No PID] and returns; the world and the widget are untouched, so
    [try_kill_pid] is not reached, no handle is made, no signal is sent and
    the operator is not asked anything. *)
Theorem kill_without_pid {W : Type} (host : Host W) (pid : Z) (pname local_addr : string)
    (s : state W) :
  pid <= 0 ->
  on_kill_clicked host pid pname local_addr s =
  (Ok tt, s,
   [EvInformation "No PID" "This socket is not associated with a visible PID."]).
Proof.
  intros Hpid. unfold on_kill_clicked.
  assert (H : (pid =? 0) || (pid <=? 0) = true).
  { apply orb_true_iff. right. now apply Z.leb_le. }
  rewrite H. reflexivity.
Qed.

Lemma kill_without_pid_witness :
  on_kill_clicked (Scripted.host "linux") (-1) "" "0.0.0.0:53"
    (State (Examples.searching "") Examples.settled) =
  (Ok tt, State (Examples.searching "") Examples.settled,
   [EvInformation "No PID" "This socket is not associated with a visible PID."]).
Proof.
  apply (kill_without_pid (Scripted.host "linux") (-1) "" "0.0.0.0:53"). lia.
Defined.

(** Called with the pid -1 on a host where [psutil.Process] refuses it,
    [try_kill_pid] goes on to the fallback and reports a success. *)
Lemma bad_pid_run :
  try_kill_pid (Scripted.host "linux") (-1)
    (State Scripted.fresh Examples.refusing_bad_pids) =
  (Ok (true, "SIGTERM sent"), State Scripted.fresh Examples.refusing_bad_pids,
   [EvProcess (-1); EvOsKill (-1) SIGTERM]).
Proof. reflexivity. Qed.

(** C9, as stated, fails: it is not so that [try_kill_pid] answers every pid
    not above 0 with a failure, let alone with the reason [no PID] and no
    call made. *)
Lemma try_kill_pid_has_no_pid_guard :
  ~ (forall (W : Type) (host : Host W) (pid : Z) (s : state W),
        pid <= 0 ->
        exists reason s' tr, try_kill_pid host pid s = (Ok (false, reason), s', tr)).
Proof.
  intros H.
  destruct (H _ (Scripted.host "linux") (-1)
              (State Scripted.fresh Examples.refusing_bad_pids) ltac:(lia))
    as (reason & s' & tr & Heq).
  rewrite bad_pid_run in Heq. discriminate Heq.
Qed.

(** C1, as amended. [try_kill_pid] reports [process not found] when the
    [try] block raises [NoSuchProcess] or [ProcessLookupError], as when the
    handle cannot be made; [terminated] when the process exits within the
    first wait of 3; [killed] when that wait times out and the process exits
    within the second wait of 3, after [kill]. When the second wait times out
    as well, the platform fallback decides: off Windows, [os.kill] with
    SIGTERM, success [SIGTERM sent] when that call returns and a failure when
    it raises; on Windows, [taskkill], success [taskkill] when it exits zero
    and a failure otherwise. *)
Theorem try_kill_pid_state_machine {W : Type} (host : Host W) (pid : Z) (s : state W) :
  (forall e s1 t1,
      try_kill_body host pid s = (Raise e, s1, t1) ->
      isinstance e NoSuchProcess || isinstance e ProcessLookupError = true ->
      try_kill_pid host pid s = (Ok (false, "process not found"), s1, t1)) /\
  (forall e w1,
      Process host pid (world s) = (Raise e, w1) ->
      isinstance e NoSuchProcess || isinstance e ProcessLookupError = true ->
      try_kill_pid host pid s =
      (Ok (false, "process not found"), State (self s) w1, [EvProcess pid])) /\
  (forall w1 w2 w3,
      Process host pid (world s) = (Ok tt, w1) ->
      Process_terminate host pid w1 = (Ok tt, w2) ->
      Process_wait host pid 3 w2 = (Ok tt, w3) ->
      try_kill_pid host pid s =
      (Ok (true, "terminated"), State (self s) w3,
       [EvProcess pid; EvTerminate pid; EvWait pid 3])) /\
  (forall w1 w2 e1 w3 w4 w5,
      Process host pid (world s) = (Ok tt, w1) ->
      Process_terminate host pid w1 = (Ok tt, w2) ->
      Process_wait host pid 3 w2 = (Raise e1, w3) ->
      isinstance e1 TimeoutExpired = true ->
      Process_kill host pid w3 = (Ok tt, w4) ->
      Process_wait host pid 3 w4 = (Ok tt, w5) ->
      try_kill_pid host pid s =
      (Ok (true, "killed"), State (self s) w5, exhausted_trace pid)) /\
  (forall e2 w5,
      waits_exhausted host pid (world s) e2 w5 ->
      if startswith (sys_platform host) "win"
      then
        match check_call host (taskkill_argv pid) w5 with
        | (Ok _, w6) =>
            try_kill_pid host pid s =
            (Ok (true, "taskkill"), State (self s) w6,
             exhausted_trace pid ++ [EvCheckCall (taskkill_argv pid)])
        | (Raise e3, w6) =>
            try_kill_pid host pid s =
            (Ok (false, str_exn e2 +:+ "; taskkill failed: " +:+ str_exn e3),
             State (self s) w6,
             exhausted_trace pid ++ [EvCheckCall (taskkill_argv pid)])
        end
      else
        match os_kill host pid SIGTERM w5 with
        | (Ok _, w6) =>
            try_kill_pid host pid s =
            (Ok (true, "SIGTERM sent"), State (self s) w6,
             exhausted_trace pid ++ [EvOsKill pid SIGTERM])
        | (Raise e3, w6) =>
            try_kill_pid host pid s =
            (Ok (false, if isinstance e3 PermissionError
                        then "permission denied: " +:+ str_exn e3
                        else str_exn e3),
             State (self s) w6,
             exhausted_trace pid ++ [EvOsKill pid SIGTERM])
        end).
Proof.
  assert (Hbody : forall e s1 t1,
             try_kill_body host pid s = (Raise e, s1, t1) ->
             isinstance e NoSuchProcess || isinstance e ProcessLookupError = true ->
             try_kill_pid host pid s = (Ok (false, "process not found"), s1, t1)).
  { intros e s1 t1 Hb He. rewrite try_kill_pid_run, Hb, He, app_nil_r. reflexivity. }
  split; [exact Hbody|]. split; [|split; [|split]].
  - intros e w1 H He. apply (Hbody e); [|exact He].
    unfold try_kill_body, bind, call. rewrite H. reflexivity.
  - intros w1 w2 w3 H1 H2 H3. rewrite try_kill_pid_run.
    unfold try_kill_body, try_except, bind, call, ret.
    rewrite H1; cbn. rewrite H2; cbn. rewrite H3; cbn. reflexivity.
  - intros w1 w2 e1 w3 w4 w5 H1 H2 H3 T1 H4 H5. rewrite try_kill_pid_run.
    unfold try_kill_body, try_except, bind, call, ret.
    rewrite H1; cbn. rewrite H2; cbn. rewrite H3; cbn. rewrite T1; cbn.
    rewrite H4; cbn. rewrite H5; cbn. reflexivity.
  - intros e2 w5 Hx.
    assert (T2 : isinstance e2 TimeoutExpired = true).
    { destruct Hx as (? & ? & ? & ? & ? & _ & _ & _ & _ & _ & _ & T2). exact T2. }
    pose proof (try_kill_pid_run host pid s) as Hrun.
    rewrite (waits_exhausted_body host pid s e2 w5 Hx) in Hrun. cbv beta iota in Hrun.
    rewrite (timeout_not_lookup e2 T2), try_kill_fallback_run in Hrun. cbn in Hrun.
    destruct (startswith (sys_platform host) "win").
    + destruct (check_call host (taskkill_argv pid) w5) as [[u|e3] w6]; exact Hrun.
    + destruct (os_kill host pid SIGTERM w5) as [[u|e3] w6]; exact Hrun.
Qed.

Lemma try_kill_pid_state_machine_witness :
  try_kill_pid (Scripted.host "linux") 4242 (State Scripted.fresh Examples.gone) =
  (Ok (false, "process not found"), State Scripted.fresh Examples.gone, [EvProcess 4242]) /\
  try_kill_pid (Scripted.host "linux") 4242 (State Scripted.fresh Examples.settled) =
  (Ok (true, "terminated"), State Scripted.fresh Examples.settled,
   [EvProcess 4242; EvTerminate 4242; EvWait 4242 3]) /\
  try_kill_pid (Scripted.host "linux") 4242 (State Scripted.fresh Examples.exits_when_killed) =
  (Ok (true, "killed"), State Scripted.fresh Examples.settled, exhausted_trace 4242).
Proof.
  split; [|split].
  - eapply (proj1 (proj2 (try_kill_pid_state_machine (Scripted.host "linux") 4242
                            (State Scripted.fresh Examples.gone)))); reflexivity.
  - eapply (proj1 (proj2 (proj2 (try_kill_pid_state_machine (Scripted.host "linux") 4242
                                   (State Scripted.fresh Examples.settled))))); reflexivity.
  - eapply (proj1 (proj2 (proj2 (proj2
              (try_kill_pid_state_machine (Scripted.host "linux") 4242
                 (State Scripted.fresh Examples.exits_when_killed))))));
      reflexivity.
Defined.

(** A process that survives both waits: off Windows the answer is a success. *)
Lemma never_exits_run :
  try_kill_pid (Scripted.host "linux") 4242 (State Scripted.fresh Examples.never_exits) =
  (Ok (true, "SIGTERM sent"), State Scripted.fresh Examples.settled,
   [EvProcess 4242; EvTerminate 4242; EvWait 4242 3; EvKill 4242; EvWait 4242 3;
    EvOsKill 4242 SIGTERM]).
Proof. reflexivity. Qed.

Lemma never_exits_waits_exhausted :
  waits_exhausted (Scripted.host "linux") 4242 Examples.never_exits
    Examples.timeout Examples.settled.
Proof.
  exists Examples.never_exits, Examples.never_exits, Examples.timeout,
    Examples.exits_when_killed, Examples.exits_when_killed.
  repeat split.
Qed.

(** C1, as stated, fails: it is not so that [try_kill_pid] answers with a
    failure whenever both waits have timed out. *)
Lemma timeout_exhausted_is_not_a_failure :
  ~ (forall (W : Type) (host : Host W) (pid : Z) (s : state W) (e2 : exn) (w5 : W),
        waits_exhausted host pid (world s) e2 w5 ->
        exists reason s' tr, try_kill_pid host pid s = (Ok (false, reason), s', tr)).
Proof.
  intros H.
  destruct (H _ (Scripted.host "linux") 4242 (State Scripted.fresh Examples.never_exits)
              Examples.timeout Examples.settled never_exits_waits_exhausted)
    as (reason & s' & tr & Heq).
  rewrite never_exits_run in Heq. discriminate Heq.
Qed.

(** C7, as amended. When the [try] block of [try_kill_pid] raises a
    permission error at any of its steps, the platform fallback is run and
    its outcome returned. Off Windows: [SIGTERM sent] and success when
    [os.kill] returns, the failure [permission denied: detail] when it raises
    [PermissionError], the failure with the error text for another exception.
    On Windows: [taskkill] and success when the command exits zero, else the
    failure made of the first error text, [; taskkill failed: ] and the
    second. A result is returned and the fallback call is made in every
    case. *)
Theorem permission_failure_runs_fallback {W : Type} (host : Host W) (pid : Z)
    (s s1 : state W) (e : exn) (t1 : list event) :
  try_kill_body host pid s = (Raise e, s1, t1) ->
  isinstance e AccessDenied || isinstance e PermissionError = true ->
  if startswith (sys_platform host) "win"
  then
    match check_call host (taskkill_argv pid) (world s1) with
    | (Ok _, w2) =>
        try_kill_pid host pid s =
        (Ok (true, "taskkill"), State (self s) w2, t1 ++ [EvCheckCall (taskkill_argv pid)])
    | (Raise e2, w2) =>
        try_kill_pid host pid s =
        (Ok (false, str_exn e +:+ "; taskkill failed: " +:+ str_exn e2),
         State (self s) w2, t1 ++ [EvCheckCall (taskkill_argv pid)])
    end
  else
    match os_kill host pid SIGTERM (world s1) with
    | (Ok _, w2) =>
        try_kill_pid host pid s =
        (Ok (true, "SIGTERM sent"), State (self s) w2, t1 ++ [EvOsKill pid SIGTERM])
    | (Raise e3, w2) =>
        try_kill_pid host pid s =
        (Ok (false, if isinstance e3 PermissionError
                    then "permission denied: " +:+ str_exn e3
                    else str_exn e3),
         State (self s) w2, t1 ++ [EvOsKill pid SIGTERM])
    end.
Proof.
  intros Hbody Hperm.
  pose proof (try_kill_body_self host pid s) as Hself. rewrite Hbody in Hself. cbn in Hself.
  pose proof (try_kill_pid_run host pid s) as Hrun.
  rewrite Hbody in Hrun. cbv beta iota in Hrun.
  rewrite (permission_not_lookup e Hperm), try_kill_fallback_run, Hself in Hrun.
  destruct (startswith (sys_platform host) "win").
  - destruct (check_call host (taskkill_argv pid) (world s1)) as [[u|e2] w2]; exact Hrun.
  - destruct (os_kill host pid SIGTERM (world s1)) as [[u|e3] w2]; exact Hrun.
Qed.

Lemma permission_failure_runs_fallback_witness :
  try_kill_pid (Scripted.host "linux") 4 (State Scripted.fresh Examples.not_permitted) =
  (Ok (false, "permission denied: [Errno 1] Operation not permitted"),
   State Scripted.fresh Examples.not_permitted,
   [EvProcess 4; EvTerminate 4; EvOsKill 4 SIGTERM]).
Proof.
  refine (permission_failure_runs_fallback (Scripted.host "linux") 4
            (State Scripted.fresh Examples.not_permitted)
            (State Scripted.fresh Examples.not_permitted)
            Examples.denied [EvProcess 4; EvTerminate 4] _ _); reflexivity.
Defined.

(** On Windows, a process that may not be signalled and a failing [taskkill]. *)
Lemma not_permitted_windows_run :
  try_kill_pid (Scripted.host "win32") 4 (State Scripted.fresh Examples.not_permitted) =
  (Ok (false, "(pid=4); taskkill failed: Command taskkill returned non-zero exit status 1."),
   State Scripted.fresh Examples.not_permitted,
   [EvProcess 4; EvTerminate 4; EvCheckCall ["taskkill"; "/PID"; "4"; "/F"]]).
Proof. reflexivity. Qed.

(** C7, as stated, fails: a permission error in the [try] block does not
    always end in a success or in a failure whose reason starts with
    [permission denied]. *)
Lemma permission_failure_reason_differs :
  ~ (forall (W : Type) (host : Host W) (pid : Z) (s s1 : state W) (e : exn)
            (t1 : list event),
        try_kill_body host pid s = (Raise e, s1, t1) ->
        isinstance e AccessDenied || isinstance e PermissionError = true ->
        exists ok reason s' tr,
          try_kill_pid host pid s = (Ok (ok, reason), s', tr) /\
          (ok = true \/ String.prefix "permission denied" reason = true)).
Proof.
  intros H.
  destruct (H _ (Scripted.host "win32") 4 (State Scripted.fresh Examples.not_permitted)
              (State Scripted.fresh Examples.not_permitted) Examples.denied
              [EvProcess 4; EvTerminate 4] eq_refl eq_refl)
    as (ok & reason & s' & tr & Heq & Hor).
  rewrite not_permitted_windows_run in Heq.
  injection Heq as <- <- _ _. destruct Hor as [Hok|Hpre]; discriminate.
Qed.

(** * The widget between actions *)

Section Invariant.

Context {W : Type} (host : Host W).

Implicit Types (s : state W) (pid : Z).

Lemma try_kill_pid_self pid s :
  self (snd (fst (try_kill_pid host pid s))) = self s.
Proof.
  rewrite try_kill_pid_run.
  pose proof (try_kill_body_self host pid s) as Hb.
  destruct (try_kill_body host pid s) as [[[a|e] s1] t1]; cbn in Hb; [exact Hb|].
  destruct (isinstance e NoSuchProcess || isinstance e ProcessLookupError); [exact Hb|].
  destruct (try_kill_fallback_answers host pid e s1) as (ok & reason & w1 & ev & ->).
  exact Hb.
Qed.

(** A refresh either leaves the widget as it was or stores what it built. *)
Lemma refresh_cases s :
  (exists w' tr, refresh host s = (Ok tt, State (self s) w', tr)) \/
  (exists conns built w' tr,
      refresh host s = (Ok tt, State (refreshed (self s) built) w', tr) /\
      Forall2 row_built_from conns built).
Proof.
  destruct (net_connections host (world s)) as [[conns|e] w1] eqn:Hnet.
  - right. destruct (refresh_ok host s conns w1 Hnet) as (built & w2 & tr & Hrun & Hb & _).
    exists conns, built, w2, (EvNetConnections :: tr). now split.
  - left. eexists _, _. apply (refresh_failed host s e w1 Hnet).
Qed.

Lemma refreshed_consistent (w : PortInspector) (conns : list sconn) (built : list row) :
  Forall2 row_built_from conns built -> consistent (refreshed w built).
Proof.
  intros Hb. unfold consistent, refreshed. cbn.
  repeat split; [apply sort_rows_sorted | exact (built_rows_absent_pid conns built Hb)].
Qed.

Lemma refresh_consistent s :
  consistent (self s) -> consistent (self (snd (fst (refresh host s)))).
Proof.
  intros Hs.
  destruct (refresh_cases s) as [(w' & tr & ->) | (conns & built & w' & tr & -> & Hb)]; cbn.
  - exact Hs.
  - now apply refreshed_consistent with conns.
Qed.

Lemma text_changed_consistent text s :
  consistent (self s) ->
  consistent (self (snd (fst (perform host (TextChanged text) s)))).
Proof.
  unfold perform, bind, get_self, set_self. cbn. rewrite apply_filter_run.
  unfold consistent, query_of. cbn.
  destruct (_all_rows (self s)) as [rows|] eqn:E; cbn; rewrite E.
  - intros (Hsorted & Hnames & _). repeat split; assumption.
  - trivial.
Qed.

Lemma on_kill_clicked_consistent pid pname local_addr s :
  consistent (self s) ->
  consistent (self (snd (fst (on_kill_clicked host pid pname local_addr s)))).
Proof.
  intros Hs. unfold on_kill_clicked.
  destruct ((pid =? 0) || (pid <=? 0)); [exact Hs|].
  unfold bind, call. cbn.
  destruct (question host _ _ (world s)) as [[|] w1]; cbn; [|exact Hs].
  pose proof (try_kill_pid_self pid (State (self s) w1)) as Hself.
  destruct (try_kill_pid_answers host pid (State (self s) w1))
    as (ok & reason & s1 & t1 & Hrun).
  rewrite Hrun in Hself |- *. cbn in Hself. destruct ok; cbn.
  - pose proof (refresh_consistent s1) as Hr. rewrite Hself in Hr. specialize (Hr Hs).
    destruct (refresh host s1) as [[r s2] t2]. destruct r; exact Hr.
  - rewrite Hself. exact Hs.
Qed.

(** X1. In every state the widget can reach, by any sequence of refreshes,
    changes of the search text and clicks on Kill, whatever the host answers:
    the stored snapshot is sorted, its rows without a pid have no name, and
    the table shows the snapshot filtered by the text of the search box; it
    is empty while no snapshot was ever stored. *)
Lemma reachable_consistent s : reachable host s -> consistent (self s).
Proof.
  induction 1 as [w | s w _ IH | s a _ IH].
  - reflexivity.
  - exact IH.
  - destruct a as [|text|pid pname local_addr].
    + now apply refresh_consistent.
    + now apply text_changed_consistent.
    + now apply on_kill_clicked_consistent.
Qed.

End Invariant.

Lemma reachable_consistent_witness :
  consistent
    (self (snd (fst (perform (Scripted.host "linux") (TextChanged "80")
                       (snd (fst (perform (Scripted.host "linux") Refresh
                                    (State initial Examples.listing)))))))).
Proof.
  apply (reachable_consistent (Scripted.host "linux")).
  apply reach_action, reach_action, reach_initial.
Defined.

(** * Further properties of the sort and the addresses *)

Lemma str_int_inj (a b : Z) : str_int a = str_int b -> a = b.
Proof.
  intros H. pose proof (int_of_str_int a) as Ha. rewrite H, int_of_str_int in Ha. congruence.
Qed.

Lemma str_int_nonempty (n : Z) : str_int n <> "".
Proof. intros H. pose proof (int_of_str_int n) as Hn. rewrite H in Hn. discriminate. Qed.

Lemma length_append (a b : string) :
  String.length (a +:+ b) = (String.length a + String.length b)%nat.
Proof.
  induction a as [|c a IH]; [reflexivity|].
  rewrite append_cons. cbn [String.length]. now rewrite IH.
Qed.

Lemma append_cancel_r (a b t : string) : a +:+ t = b +:+ t -> a = b.
Proof.
  revert b; induction a as [|c a IH]; intros [|d b] H.
  - reflexivity.
  - apply (f_equal String.length) in H. rewrite !length_append in H. cbn in H. lia.
  - apply (f_equal String.length) in H. rewrite !length_append in H. cbn in H. lia.
  - rewrite !append_cons in H. injection H as -> H. f_equal. now apply IH.
Qed.

(** X2. Sorting the rows keeps every row, duplicates included, and rows
    with equal keys stay in the order of the enumeration. *)
Theorem sort_keeps_rows_and_ties (l : list row) :
  Permutation l (sort_rows l) /\
  length (sort_rows l) = length l /\
  forall k, List.filter (fun r => key_eqb (sort_key r) k) (sort_rows l) =
            List.filter (fun r => key_eqb (sort_key r) k) l.
Proof.
  split; [apply sort_rows_perm|]. split.
  - symmetry. apply Permutation_length, sort_rows_perm.
  - intros k. apply sort_rows_stable.
Qed.

Lemma sort_rows_of_sorted (l : list row) : Sorted row_le l -> sort_rows l = l.
Proof.
  induction 1 as [|x l Hs IH Hhd]; [reflexivity|].
  change (sort_rows (x :: l)) with (insert_row x (sort_rows l)).
  rewrite IH. destruct Hhd as [|y l Hxy]; [reflexivity|].
  cbn [insert_row]. apply key_ltb_false in Hxy. now rewrite Hxy.
Qed.

(** X3. Rows that are already in key order are stored in the order they
    came in; in particular sorting twice is sorting once. *)
Theorem sort_rows_keeps_sorted_input (l : list row) :
  (StronglySorted row_le l -> sort_rows l = l) /\
  sort_rows (sort_rows l) = sort_rows l.
Proof.
  split.
  - intros H. now apply sort_rows_of_sorted, StronglySorted_Sorted.
  - apply sort_rows_of_sorted, StronglySorted_Sorted, sort_rows_sorted.
Qed.

Lemma sort_rows_keeps_sorted_input_witness :
  sort_rows Examples.snapshot = Examples.snapshot.
Proof.
  apply (proj1 (sort_rows_keeps_sorted_input Examples.snapshot)).
  repeat constructor; cbn; lia.
Defined.

(** X4. The address text tells the address: two addresses, present or
    not, with the same text are the same, also when the ip holds colons. *)
Theorem format_local_addr_inj (a b : option addr) :
  format_local_addr a = format_local_addr b -> a = b.
Proof.
  assert (Hne : forall x, format_local_addr (Some x) <> "").
  { intros x. cbn [format_local_addr]. destruct (ip x); discriminate. }
  destruct a as [a|], b as [b|]; intros H.
  - cbn [format_local_addr] in H.
    change (ip a +:+ String ":" (str_int (port a)) = ip b +:+ String ":" (str_int (port b))) in H.
    pose proof (f_equal (rsplit1_tail ":") H) as Ht.
    rewrite !rsplit1_tail_last in Ht by apply str_int_no_colon.
    injection Ht as Ht. rewrite Ht in H. apply append_cancel_r in H.
    apply str_int_inj in Ht. destruct a, b. cbn in *. now subst.
  - now apply Hne in H.
  - symmetry in H. now apply Hne in H.
  - reflexivity.
Qed.

Lemma format_local_addr_inj_witness :
  Some (Addr "::1" 80) = Some (Addr "::1" 80).
Proof. apply format_local_addr_inj. reflexivity. Defined.

(** * Further properties of refresh and the filter *)

(** X5. A refresh whose enumeration succeeds keeps the text of the search
    box, stores one row for each connection, shows the new snapshot filtered
    by that text and writes the number of connections in the status label. *)
Theorem refresh_rebuilds_view {W : Type} (host : Host W) (s : state W)
    (conns : list sconn) (w1 : W) :
  net_connections host (world s) = (Ok conns, w1) ->
  exists rows s' tr,
    refresh host s = (Ok tt, s', tr) /\
    _all_rows (self s') = Some rows /\
    length rows = length conns /\
    search_input (self s') = search_input (self s) /\
    table (self s') =
      map table_row_of (shown_rows (lower (strip (search_input (self s)))) rows) /\
    status_label (self s') =
      str_int (Z.of_nat (length conns)) +:+ " socket(s) found".
Proof.
  intros Hnet.
  destruct (refresh_ok host s conns w1 Hnet) as (built & w2 & tr & Hrun & Hb & _).
  exists (sort_rows built), (State (refreshed (self s) built) w2), (EvNetConnections :: tr).
  assert (Hlen : length (sort_rows built) = length conns).
  { rewrite <- (Permutation_length (sort_rows_perm built)).
    symmetry. clear -Hb. induction Hb; cbn; congruence. }
  repeat split; [exact Hrun | exact Hlen |].
  unfold refreshed. cbn. now rewrite Hlen.
Qed.

Lemma refresh_rebuilds_view_witness :
  exists rows s' tr,
    refresh (Scripted.host "linux") (State (Examples.searching "80") Examples.listing) =
      (Ok tt, s', tr) /\
    _all_rows (self s') = Some rows /\
    length rows = length Examples.conns /\
    search_input (self s') = "80" /\
    table (self s') = map table_row_of (shown_rows (lower (strip "80")) rows) /\
    status_label (self s') =
      str_int (Z.of_nat (length Examples.conns)) +:+ " socket(s) found".
Proof.
  eapply (refresh_rebuilds_view (Scripted.host "linux")
            (State (Examples.searching "80") Examples.listing) Examples.conns _).
  reflexivity.
Defined.

(** X6. Running [apply_filter] a second time changes nothing: the table it
    left is the one it computes again. *)
Theorem apply_filter_idempotent {W : Type} (s : state W) :
  apply_filter (snd (fst (apply_filter s))) = (Ok tt, snd (fst (apply_filter s)), []).
Proof.
  rewrite (apply_filter_run s).
  destruct (_all_rows (self s)) as [rows|] eqn:E; cbn [fst snd].
  - rewrite apply_filter_run. cbn. rewrite E. reflexivity.
  - rewrite apply_filter_run, E. reflexivity.
Qed.

Lemma lstrip_blank (t : string) : all_chars isspace_char t = true -> lstrip t = "".
Proof.
  induction t as [|c t IH]; cbn [all_chars lstrip]; [reflexivity|].
  rewrite andb_true_iff. intros [-> Ht]. now apply IH.
Qed.

Lemma strip_blank (t : string) : all_chars isspace_char t = true -> strip t = "".
Proof. intros H. unfold strip. now rewrite (lstrip_blank t H). Qed.

(** X7. When the text of the search box is empty or only whitespace (as
    after the Clear button), a change of the text shows the whole snapshot,
    in its order. *)
Theorem blank_text_shows_snapshot {W : Type} (host : Host W) (s : state W)
    (text : string) (rows : list row) :
  all_chars isspace_char text = true ->
  _all_rows (self s) = Some rows ->
  perform host (TextChanged text) s =
  (Ok tt,
   State (Widget text (Some rows) (map table_row_of rows) (status_label (self s))) (world s),
   []).
Proof.
  intros Hblank Hrows.
  unfold perform, bind, get_self, set_self. cbn. rewrite apply_filter_run. cbn.
  rewrite Hrows. unfold query_of, shown_rows. cbn.
  rewrite (strip_blank text Hblank). unfold set_table, set_search_input. cbn.
  rewrite Hrows. reflexivity.
Qed.

Lemma blank_text_shows_snapshot_witness :
  perform (Scripted.host "linux") (TextChanged "  ")
    (State (Examples.searching "80") Examples.settled) =
  (Ok tt, State (Examples.searching "  ") Examples.settled, []).
Proof.
  apply (blank_text_shows_snapshot (Scripted.host "linux")
           (State (Examples.searching "80") Examples.settled) "  " Examples.snapshot);
    reflexivity.
Defined.

(** X8. With a query that is not numeric, a row of the snapshot is shown
    exactly when the query occurs in the lower-cased process name, protocol
    label, local address, remote address or status; the pid plays no part. *)
Theorem text_query_matches {W : Type}
    (text : string) (rows : list row) (tbl : list table_row) (label : string) (w : W)
    (r : row) :
  let q := lower (strip text) in
  let shown := table_after_filter (State (Widget text (Some rows) tbl label) w) in
  q <> "" ->
  isdigit q = false ->
  (In (table_row_of r) shown <->
   In r rows /\
   (contains q (lower (r_pname r)) = true \/ contains q (lower (r_proto r)) = true \/
    contains q (lower (r_laddr r)) = true \/ contains q (lower (r_raddr r)) = true \/
    contains q (lower (r_status r)) = true)).
Proof.
  intros q shown Hq Hnum.
  assert (Hshown : shown = map table_row_of (List.filter (row_shown q) rows)).
  { unfold shown, table_after_filter. rewrite apply_filter_run. cbn.
    unfold shown_rows, query_of. cbn. fold q.
    apply String.eqb_neq in Hq. now rewrite Hq, filter_rows_filter. }
  rewrite Hshown, in_shown_table.
  unfold row_shown, numeric_match, text_match. rewrite Hnum, !or_empty_id. cbn [andb orb].
  rewrite !orb_true_iff. tauto.
Qed.

Lemma text_query_matches_witness :
  In (table_row_of Examples.nginx_row)
     (table_after_filter (State (Examples.searching " NGINX ") Scripted.quiet)).
Proof.
  refine (proj2 (text_query_matches " NGINX " Examples.snapshot _ _
                   Scripted.quiet Examples.nginx_row _ _) _).
  - discriminate.
  - reflexivity.
  - split; [right; right; left; reflexivity | left; reflexivity].
Defined.

Lemma append_assoc (a b c : string) : (a +:+ b) +:+ c = a +:+ (b +:+ c).
Proof.
  induction a as [|x a IH]; [reflexivity|].
  rewrite !append_cons. now rewrite IH.
Qed.

Lemma contains_trans (a b s : string) :
  contains a b = true -> contains b s = true -> contains a s = true.
Proof.
  rewrite !contains_iff. intros (x & y & ->) (u & v & ->).
  exists (u +:+ x), (y +:+ v).
  rewrite !append_assoc. reflexivity.
Qed.

Lemma filter_sublist_impl {A} (f g : A -> bool) (l : list A) :
  (forall x, f x = true -> g x = true) ->
  sublist (List.filter f l) (List.filter g l).
Proof.
  intros Hfg. induction l as [|x l IH]; cbn [List.filter]; [constructor|].
  destruct (f x) eqn:Ef.
  - rewrite (Hfg x Ef). now constructor.
  - destruct (g x); [now constructor | exact IH].
Qed.

(** X9. Making a query longer narrows what is shown when the longer query
    is not numeric: if [q1] occurs in [q2], every row shown for [q2] is shown
    for [q1], in the same order. *)
Theorem longer_query_narrows (q1 q2 : string) (rows : list row) :
  contains q1 q2 = true ->
  isdigit q2 = false ->
  sublist (filter_rows q2 rows) (filter_rows q1 rows).
Proof.
  intros Hsub Hnum. rewrite !filter_rows_filter. apply filter_sublist_impl.
  intros r. unfold row_shown, numeric_match, text_match. rewrite Hnum. cbn [andb orb].
  rewrite !orb_true_iff.
  intros [[[[H|H]|H]|H]|H]; pose proof (contains_trans _ _ _ Hsub H) as H'; tauto.
Qed.

Lemma longer_query_narrows_witness :
  sublist (filter_rows "ngin" Examples.snapshot) (filter_rows "n" Examples.snapshot).
Proof. apply longer_query_narrows; reflexivity. Defined.

(** * Further properties of the kill path *)

Section KillShape.

Context {W : Type} (host : Host W).

Implicit Types (s : state W) (pid : Z).

Lemma try_kill_body_shape pid s :
  exists r w' n,
    try_kill_body host pid s = (r, State (self s) w', firstn n (exhausted_trace pid)) /\
    (1 <= n <= 5)%nat /\
    match r with
    | Ok v => (v = (true, "terminated") /\ n = 3%nat) \/ (v = (true, "killed") /\ n = 5%nat)
    | Raise _ => True
    end.
Proof.
  unfold try_kill_body, try_except, bind, call, ret, raise, exhausted_trace.
  destruct (Process host pid (world s)) as [[u|e] w1]; cbn;
    [|exists (Raise e), w1, 1%nat; repeat split; lia].
  destruct (Process_terminate host pid w1) as [[u'|e] w2]; cbn;
    [|exists (Raise e), w2, 2%nat; repeat split; lia].
  destruct (Process_wait host pid 3 w2) as [[u''|e] w3]; cbn;
    [exists (Ok (true, "terminated")), w3, 3%nat; repeat split; auto; lia|].
  destruct (isinstance e TimeoutExpired); cbn;
    [|exists (Raise e), w3, 3%nat; repeat split; lia].
  destruct (Process_kill host pid w3) as [[u''|e'] w4]; cbn;
    [|exists (Raise e'), w4, 4%nat; repeat split; lia].
  destruct (Process_wait host pid 3 w4) as [[u3|e'] w5]; cbn.
  - exists (Ok (true, "killed")), w5, 5%nat. repeat split; auto; lia.
  - exists (Raise e'), w5, 5%nat. repeat split; lia.
Qed.

Lemma try_kill_pid_shape pid s :
  exists ok reason w' n fb,
    try_kill_pid host pid s =
      (Ok (ok, reason), State (self s) w', firstn n (exhausted_trace pid) ++ fb) /\
    (1 <= n <= 5)%nat /\
    (fb = [] \/
     (fb = [EvCheckCall (taskkill_argv pid)] /\ startswith (sys_platform host) "win" = true) \/
     (fb = [EvOsKill pid SIGTERM] /\ startswith (sys_platform host) "win" = false)) /\
    (ok = true -> In reason success_reasons).
Proof.
  rewrite try_kill_pid_run.
  destruct (try_kill_body_shape pid s) as (r & w1 & n & -> & Hn & Hr).
  destruct r as [[ok reason]|e].
  - exists ok, reason, w1, n, []. rewrite app_nil_r.
    split; [reflexivity|]. split; [lia|]. split; [now left|].
    intros _. destruct Hr as [[Heq _]|[Heq _]]; injection Heq as _ ->;
      unfold success_reasons; cbn [In]; auto.
  - destruct (isinstance e NoSuchProcess || isinstance e ProcessLookupError).
    + exists false, "process not found", w1, n, []. repeat split; try lia; auto; try discriminate.
    + rewrite try_kill_fallback_run. cbn [self world].
      destruct (startswith (sys_platform host) "win") eqn:Ewin.
      * destruct (check_call host (taskkill_argv pid) w1) as [[u|e2] w2];
          eexists _, _, w2, n, _; (split; [reflexivity|]); repeat split; try lia; auto;
          cbn; auto; try discriminate.
      * destruct (os_kill host pid SIGTERM w1) as [[u|e3] w2];
          eexists _, _, w2, n, _; (split; [reflexivity|]); repeat split; try lia; auto;
          cbn; auto; try discriminate.
Qed.

Lemma in_firstn {A} (n : nat) (l : list A) (x : A) : In x (firstn n l) -> In x l.
Proof.
  revert l; induction n as [|n IH]; intros [|y l]; cbn; try tauto.
  intros [->|H]; [now left | right; now apply IH].
Qed.

Lemma exhausted_in_kill_calls pid (n : nat) (ev : event) :
  In ev (firstn n (exhausted_trace pid)) -> In ev (kill_calls pid).
Proof.
  intros H. apply in_firstn in H. unfold exhausted_trace, kill_calls in *.
  cbn in *. intuition.
Qed.

Lemma try_kill_pid_calls pid s :
  exists ok reason w' tr,
    try_kill_pid host pid s = (Ok (ok, reason), State (self s) w', tr) /\
    (forall ev, In ev tr -> In ev (kill_calls pid)).
Proof.
  destruct (try_kill_pid_shape pid s) as (ok & reason & w' & n & fb & Hrun & _ & Hfb & _).
  exists ok, reason, w', (firstn n (exhausted_trace pid) ++ fb). split; [exact Hrun|].
  intros ev Hin. apply in_app_or in Hin as [Hin|Hin].
  - now apply exhausted_in_kill_calls in Hin.
  - destruct Hfb as [->|[[-> _]|[-> _]]]; cbn in Hin; [contradiction | |];
      destruct Hin as [<-|[]]; cbn; auto 10.
Qed.

(** A refresh never raises; it starts with the enumeration and its other
    calls are name lookups for positive pids or its error box. *)
Lemma refresh_trace s :
  exists s' tr,
    refresh host s = (Ok tt, s', tr) /\
    hd_error tr = Some EvNetConnections /\
    Forall refresh_event tr.
Proof.
  destruct (net_connections host (world s)) as [[conns|e] w1] eqn:Hnet.
  - destruct (refresh_ok host s conns w1 Hnet) as (built & w2 & tr & Hrun & _ & Ht).
    eexists _, _. split; [exact Hrun|]. split; [reflexivity|].
    constructor; [now left|].
    eapply Forall_impl; [exact Ht|]. intros ev Hev. right. right. exact Hev.
  - eexists _, _. split; [apply (refresh_failed host s e w1 Hnet)|]. split; [reflexivity|].
    constructor; [now left|]. constructor; [|constructor].
    right. left. eexists. reflexivity.
Qed.

Lemma refresh_event_not_signal (ev : event) (p : Z) :
  refresh_event ev -> ~ signals ev p.
Proof.
  intros Hr Hs. destruct Hr as [Hr|[[t Hr]|[q [_ [Hr|Hr]]]]]; subst ev;
    destruct Hs as [H|[H|[[sg H]|H]]]; discriminate.
Qed.

Lemma kill_call_signal pid (ev : event) (p : Z) :
  In ev (kill_calls pid) -> signals ev p -> p = pid.
Proof.
  unfold kill_calls. cbn. intros Hin Hs.
  destruct Hs as [ -> | [ -> | [ [sg ->] | -> ] ] ];
    repeat (destruct Hin as [Hin|Hin]); try discriminate; try contradiction;
    try (injection Hin; congruence).
  injection Hin as Hin. symmetry. now apply str_int_inj.
Qed.

(** The paths of [on_kill_clicked]. *)
Lemma on_kill_clicked_shape pid pname local_addr s :
  (pid <= 0 /\
   on_kill_clicked host pid pname local_addr s =
   (Ok tt, s, [EvInformation "No PID" "This socket is not associated with a visible PID."]))
  \/
  (0 < pid /\
   exists b w1,
     question host "Confirm Kill" (confirm_text pid pname local_addr) (world s) = (b, w1) /\
     match b with
     | No =>
         on_kill_clicked host pid pname local_addr s =
         (Ok tt, State (self s) w1,
          [EvQuestion "Confirm Kill" (confirm_text pid pname local_addr)])
     | Yes =>
         exists ok reason w2 t1,
           try_kill_pid host pid (State (self s) w1) =
             (Ok (ok, reason), State (self s) w2, t1) /\
           (forall ev, In ev t1 -> In ev (kill_calls pid)) /\
           if ok : bool
           then exists s2 t2,
               refresh host (State (self s) w2) = (Ok tt, s2, t2) /\
               hd_error t2 = Some EvNetConnections /\
               Forall refresh_event t2 /\
               on_kill_clicked host pid pname local_addr s =
               (Ok tt, s2,
                EvQuestion "Confirm Kill" (confirm_text pid pname local_addr) ::
                t1 ++ EvInformation "Killed" ("Successfully signaled PID " +:+ str_int pid +:+ ".")
                   :: t2)
           else
             on_kill_clicked host pid pname local_addr s =
             (Ok tt, State (self s) w2,
              EvQuestion "Confirm Kill" (confirm_text pid pname local_addr) ::
              t1 ++ [EvCritical "Failed"
                       ("Failed to kill PID " +:+ str_int pid +:+ ":" +:+ nl +:+ reason)])
     end).
Proof.
  unfold on_kill_clicked. fold (confirm_text pid pname local_addr).
  destruct (Z.leb_spec pid 0) as [Hle|Hgt].
  - left. split; [exact Hle|]. now rewrite orb_true_r.
  - right. split; [exact Hgt|].
    assert (H0 : (pid =? 0) = false) by (apply Z.eqb_neq; lia). rewrite H0. cbn [orb].
    unfold bind, call. cbn [world self].
    destruct (question host "Confirm Kill" (confirm_text pid pname local_addr) (world s))
      as [b w1].
    exists b, w1. split; [reflexivity|]. destruct b; [|reflexivity].
    destruct (try_kill_pid_calls pid (State (self s) w1)) as (ok & reason & w2 & t1 & Hrun & Hcalls).
    exists ok, reason, w2, t1. cbn [self] in Hrun. split; [exact Hrun|]. split; [exact Hcalls|].
    rewrite Hrun. destruct ok.
    + destruct (refresh_trace (State (self s) w2)) as (s2 & t2 & Href & Hhd & Hev).
      exists s2, t2. repeat split; try assumption.
      unfold emit. cbn. rewrite Href. reflexivity.
    + unfold emit. cbn. reflexivity.
Qed.

End KillShape.

(** X10. [try_kill_pid] never raises and leaves the widget as it was. Its
    calls are at most six, all for the given pid; [kill] is sent only after
    the handle was made, [terminate] was sent and a wait was made; [taskkill]
    is run only on Windows and [os.kill] only elsewhere; and a success comes
    with one of four reasons. *)
Theorem try_kill_pid_contained {W : Type} (host : Host W) (pid : Z) (s : state W) :
  exists ok reason w' tr,
    try_kill_pid host pid s = (Ok (ok, reason), State (self s) w', tr) /\
    (forall ev, In ev tr -> In ev (kill_calls pid)) /\
    (length tr <= 6)%nat /\
    (In (EvKill pid) tr ->
     exists rest, tr = [EvProcess pid; EvTerminate pid; EvWait pid 3; EvKill pid] ++ rest) /\
    (In (EvCheckCall (taskkill_argv pid)) tr -> startswith (sys_platform host) "win" = true) /\
    (In (EvOsKill pid SIGTERM) tr -> startswith (sys_platform host) "win" = false) /\
    (ok = true -> In reason success_reasons).
Proof.
  destruct (try_kill_pid_shape host pid s)
    as (ok & reason & w' & n & fb & Hrun & Hn & Hfb & Hok).
  exists ok, reason, w', (firstn n (exhausted_trace pid) ++ fb).
  split; [exact Hrun|]. split; [|split; [|split; [|split; [|split]]]].
  - intros ev Hin. apply in_app_or in Hin as [Hin|Hin].
    + now apply exhausted_in_kill_calls in Hin.
    + destruct Hfb as [->|[[-> _]|[-> _]]]; cbn in Hin; [contradiction | |];
        destruct Hin as [<-|[]]; cbn; auto 10.
  - rewrite length_app, length_firstn. unfold exhausted_trace. cbn [length].
    destruct Hfb as [->|[[-> _]|[-> _]]]; cbn [length]; lia.
  - intros Hin.
    assert (Hn' : (4 <= n)%nat).
    { apply in_app_or in Hin as [Hin|Hin].
      - unfold exhausted_trace in Hin.
        destruct n as [|[|[|[|n]]]]; cbn in Hin; try lia;
          repeat (destruct Hin as [Hin|Hin]; try discriminate Hin); contradiction.
      - destruct Hfb as [->|[[-> _]|[-> _]]]; cbn in Hin;
          repeat (destruct Hin as [Hin|Hin]; try discriminate Hin); contradiction. }
    destruct n as [|[|[|[|n]]]]; try lia. unfold exhausted_trace. cbn [firstn app].
    eexists. reflexivity.
  - intros Hin. apply in_app_or in Hin as [Hin|Hin].
    + apply in_firstn in Hin. unfold exhausted_trace in Hin. cbn in Hin.
      repeat (destruct Hin as [Hin|Hin]; try discriminate Hin). contradiction.
    + destruct Hfb as [->|[[-> Hw]|[-> _]]]; cbn in Hin; [contradiction | exact Hw |].
      destruct Hin as [Hin|[]]. discriminate Hin.
  - intros Hin. apply in_app_or in Hin as [Hin|Hin].
    + apply in_firstn in Hin. unfold exhausted_trace in Hin. cbn in Hin.
      repeat (destruct Hin as [Hin|Hin]; try discriminate Hin). contradiction.
    + destruct Hfb as [->|[[-> _]|[-> Hw]]]; cbn in Hin; [contradiction | | exact Hw].
      destruct Hin as [Hin|[]]. discriminate Hin.
  - exact Hok.
Qed.

(** X11. A refresh never raises, whatever the host answers; it starts with
    the enumeration, and what else it does is look up names for positive pids
    or show its error box: it sends no signal and runs no command. *)
Theorem refresh_only_reads {W : Type} (host : Host W) (s : state W) :
  exists s' tr,
    refresh host s = (Ok tt, s', tr) /\
    hd_error tr = Some EvNetConnections /\
    Forall refresh_event tr /\
    (forall ev p, In ev tr -> ~ signals ev p).
Proof.
  destruct (refresh_trace host s) as (s' & tr & Hrun & Hhd & Hev).
  exists s', tr. repeat split; try assumption.
  intros ev p Hin. apply refresh_event_not_signal.
  rewrite Stdlib.Lists.List.Forall_forall in Hev. now apply Hev.
Qed.

(** X12. [on_kill_clicked] never raises. Whatever it is called with, a
    process is signalled only when the pid is above 0 and the operator
    answered Yes, and then only the process of that pid. *)
Theorem kill_click_signals_clicked_pid_only {W : Type} (host : Host W)
    (pid : Z) (pname local_addr : string) (s : state W) :
  exists s' tr,
    on_kill_clicked host pid pname local_addr s = (Ok tt, s', tr) /\
    (forall ev p,
        In ev tr -> signals ev p ->
        p = pid /\ 0 < pid /\
        fst (question host "Confirm Kill" (confirm_text pid pname local_addr) (world s)) = Yes).
Proof.
  destruct (on_kill_clicked_shape host pid pname local_addr s)
    as [[Hle Hrun] | (Hgt & b & w1 & Hq & Hb)].
  - eexists _, _. split; [exact Hrun|].
    intros ev p [<-|[]] [H|[H|[[sg H]|H]]]; discriminate.
  - rewrite Hq. cbn [fst]. destruct b.
    + destruct Hb as (ok & reason & w2 & t1 & _ & Hcalls & Hok).
      assert (Hsig : forall ev p, In ev t1 -> signals ev p -> p = pid /\ 0 < pid /\ Yes = Yes).
      { intros ev p Hin Hs. repeat split; [|exact Hgt].
        exact (kill_call_signal pid ev p (Hcalls ev Hin) Hs). }
      destruct ok.
      * destruct Hok as (s2 & t2 & _ & _ & Hev & Hrun).
        eexists _, _. split; [exact Hrun|].
        intros ev p [<-|Hin] Hs; [destruct Hs as [H|[H|[[sg H]|H]]]; discriminate|].
        apply in_app_or in Hin as [Hin|[<-|Hin]].
        -- now apply (Hsig ev p).
        -- destruct Hs as [H|[H|[[sg H]|H]]]; discriminate.
        -- rewrite Stdlib.Lists.List.Forall_forall in Hev.
           now destruct (refresh_event_not_signal ev p (Hev ev Hin)).
      * eexists _, _. split; [exact Hok|].
        intros ev p [<-|Hin] Hs; [destruct Hs as [H|[H|[[sg H]|H]]]; discriminate|].
        apply in_app_or in Hin as [Hin|[<-|[]]].
        -- now apply (Hsig ev p).
        -- destruct Hs as [H|[H|[[sg H]|H]]]; discriminate.
    + eexists _, _. split; [exact Hb|].
      intros ev p [<-|[]] [H|[H|[[sg H]|H]]]; discriminate.
Qed.

(** X13. [on_kill_clicked] enumerates the connections again exactly when it
    has shown the notice [Killed], that is after a kill that reported
    success; in every other case the widget is left as it was. *)
Theorem kill_click_refreshes_on_success_only {W : Type} (host : Host W)
    (pid : Z) (pname local_addr : string) (s : state W) :
  exists s' tr,
    on_kill_clicked host pid pname local_addr s = (Ok tt, s', tr) /\
    (In EvNetConnections tr <-> exists text, In (EvInformation "Killed" text) tr) /\
    (~ In EvNetConnections tr -> self s' = self s).
Proof.
  assert (Hcalls_net : forall t1, (forall ev, In ev t1 -> In ev (kill_calls pid)) ->
                                  ~ In EvNetConnections t1).
  { intros t1 Hc Hin. apply Hc in Hin. unfold kill_calls in Hin. cbn in Hin.
    repeat (destruct Hin as [Hin|Hin]; try discriminate Hin). contradiction. }
  assert (Hcalls_info : forall t1 title text,
             (forall ev, In ev t1 -> In ev (kill_calls pid)) ->
             ~ In (EvInformation title text) t1).
  { intros t1 title text Hc Hin. apply Hc in Hin. unfold kill_calls in Hin. cbn in Hin.
    repeat (destruct Hin as [Hin|Hin]; try discriminate Hin). contradiction. }
  destruct (on_kill_clicked_shape host pid pname local_addr s)
    as [[Hle Hrun] | (Hgt & b & w1 & Hq & Hb)].
  - eexists _, _. split; [exact Hrun|]. split; [split|reflexivity].
    + intros [H|[]]. discriminate H.
    + intros (text & [H|[]]). discriminate H.
  - destruct b.
    + destruct Hb as (ok & reason & w2 & t1 & _ & Hcalls & Hok). destruct ok.
      * destruct Hok as (s2 & t2 & _ & Hhd & _ & Hrun).
        eexists _, _. split; [exact Hrun|].
        assert (Hnet : In EvNetConnections
                         (EvQuestion "Confirm Kill" (confirm_text pid pname local_addr)
                          :: t1 ++ EvInformation "Killed"
                                     ("Successfully signaled PID " +:+ str_int pid +:+ ".") :: t2)).
        { right. apply in_or_app. right. right.
          destruct t2 as [|ev t2]; [discriminate Hhd|]. injection Hhd as ->. now left. }
        split; [split|].
        -- intros _. eexists. right. apply in_or_app. right. left. reflexivity.
        -- intros _. exact Hnet.
        -- intros Hno. now destruct (Hno Hnet).
      * eexists _, _. split; [exact Hok|]. split; [split|reflexivity].
        -- intros [H|Hin]; [discriminate H|].
           apply in_app_or in Hin as [Hin|[H|[]]]; [|discriminate H].
           now destruct (Hcalls_net t1 Hcalls).
        -- intros (text & [H|Hin]); [discriminate H|].
           apply in_app_or in Hin as [Hin|[H|[]]]; [|discriminate H].
           now destruct (Hcalls_info t1 _ _ Hcalls Hin).
    + eexists _, _. split; [exact Hb|]. split; [split|reflexivity].
      * intros [H|[]]. discriminate H.
      * intros (text & [H|[]]). discriminate H.
Qed.

(** X14. The PID cell of a table line is empty exactly when the pid of its
    row is not above 0, and the Kill button of such a line only shows the
    notice [No PID]: it touches neither the widget nor the world. *)
Theorem empty_pid_cell_button {W : Type} (host : Host W) (r : row) (s : state W) :
  (nth 4 (items (table_row_of r)) "" = "" <-> r_pid r <= 0) /\
  (nth 4 (items (table_row_of r)) "" = "" ->
   let '(pid, pname, local_addr) := kill_args (table_row_of r) in
   on_kill_clicked host pid pname local_addr s =
   (Ok tt, s,
    [EvInformation "No PID" "This socket is not associated with a visible PID."])).
Proof.
  assert (Hcell : nth 4 (items (table_row_of r)) "" = "" <-> r_pid r <= 0).
  { unfold table_row_of. cbn [items nth].
    destruct (Z.ltb_spec 0 (r_pid r)) as [Hpos|Hle].
    - split; [intros H; now apply str_int_nonempty in H | lia].
    - split; [intros _; exact Hle | reflexivity]. }
  split; [exact Hcell|].
  intros Hempty. apply Hcell in Hempty. unfold table_row_of. cbn [kill_args].
  unfold on_kill_clicked.
  assert (H : (r_pid r =? 0) || (r_pid r <=? 0) = true).
  { apply orb_true_iff. right. now apply Z.leb_le. }
  rewrite H. reflexivity.
Qed.
